(** * Bulk ingestion of tweets into a time-partitioned table

    A shallow embedding of [scripts/ingest/backfill_parallel.py] (and of
    [parse_ts] of [scripts/ingest/backfill.py], which is the same function):
    the timestamp extractor [parse_ts], the record projector [extract_row],
    the ingestion worker [process_files] and the file partitioner of [main].

    Python values are modelled as follows.
    - A string is a [string]; every [ascii] stands for one character (a code
      point below 256).
    - An [int] is a [Z].
    - A [float] is a binary64 value of [SpecFloat.spec_float] together with
      the text [repr] prints for it; how the text is computed from the value
      is not modelled.
    - A [dict] is the list of its items in insertion order.
    - A function that may raise returns [exc]: [Ok v] or [Raise e].

    The library functions the scripts call ([int], [str], [bool],
    [str.strip], slicing, [datetime.fromtimestamp], [datetime.strptime],
    [psycopg2.extras.execute_values]) are modelled next to their callers, as
    CPython 3 has them on Linux with English day and month names; the limit
    recent interpreters put on the number of digits [int] reads is not
    modelled.  [json.loads], the store and the file system are parameters of
    the worker; a reference parser and a reference store stand for them in
    the examples. *)

From Stdlib Require Import ZArith List String Ascii Bool Lia.
From Stdlib Require Import DecimalString.
From Stdlib Require Import Floats.SpecFloat.
From Stdlib Require Import Sorting.Sorted Sorting.Permutation.
Import ListNotations.

Local Open Scope string_scope.
Local Open Scope list_scope.
Local Open Scope Z_scope.

(** ** Exceptions *)

Inductive exn : Type :=
| AttributeError
| TypeError
| ValueError
| OverflowError.

Inductive exc (A : Type) : Type :=
| Ok (a : A)
| Raise (e : exn).

Arguments Ok {A} a.
Arguments Raise {A} e.

Definition bind {A B : Type} (c : exc A) (k : A -> exc B) : exc B :=
  match c with
  | Ok a => k a
  | Raise e => Raise e
  end.

Notation "x <- c ;; k" := (bind c (fun x => k))
  (at level 61, c at next level, right associativity).

(** ** Values read from a line: the result of [json.loads] *)

Record pyfloat : Type := {
  fl_value : spec_float;
  fl_repr_head : ascii;
  fl_repr_tail : string
}.

#[warnings="-register-all"]
Inductive json : Type :=
| JNull
| JBool (b : bool)
| JInt (n : Z)
| JFloat (f : pyfloat)
| JStr (s : string)
| JList (l : list json)
| JDict (d : list (string * json)).

(** [bool(v)], the truth value Python's [or], [and], [if] and [not] use. *)
Definition truthy (v : json) : bool :=
  match v with
  | JNull => false
  | JBool b => b
  | JInt n => negb (n =? 0)
  | JFloat f => match fl_value f with S754_zero _ => false | _ => true end
  | JStr s => negb (s =? "")%string
  | JList l => match l with [] => false | _ => true end
  | JDict d => match d with [] => false | _ => true end
  end.

(** [a or b] *)
Definition py_or (a b : json) : json := if truthy a then a else b.

(** [isinstance(v, dict)] *)
Definition is_dict (v : json) : bool :=
  match v with JDict _ => true | _ => false end.

Fixpoint lookup (k : string) (d : list (string * json)) : option json :=
  match d with
  | [] => None
  | (k', v) :: d' => if (k =? k')%string then Some v else lookup k d'
  end.

(** [o.get(k, default)]: only a [dict] has the method. *)
Definition get_default (o : json) (k : string) (default : json) : exc json :=
  match o with
  | JDict d => Ok (match lookup k d with Some v => v | None => default end)
  | _ => Raise AttributeError
  end.

(** [o.get(k)] *)
Definition get (o : json) (k : string) : exc json := get_default o k JNull.

(** ** Characters and strings *)

Definition code (c : ascii) : Z := Z.of_nat (nat_of_ascii c).

(** The characters [str.isspace] accepts, which [str.strip], [int] and the
    [\s] of a regular expression use. *)
Definition is_space (c : ascii) : bool :=
  let n := code c in
  ((9 <=? n) && (n <=? 13)) || ((28 <=? n) && (n <=? 32))
  || (n =? 133) || (n =? 160).

Definition is_digit (c : ascii) : bool :=
  let n := code c in (48 <=? n) && (n <=? 57).

Definition digit_val (c : ascii) : Z := code c - 48.

Fixpoint lstrip (s : string) : string :=
  match s with
  | String c s' => if is_space c then lstrip s' else s
  | EmptyString => EmptyString
  end.

Fixpoint rstrip (s : string) : string :=
  match s with
  | String c s' =>
      match rstrip s' with
      | EmptyString => if is_space c then EmptyString else String c EmptyString
      | r => String c r
      end
  | EmptyString => EmptyString
  end.

(** [s.strip()] *)
Definition strip (s : string) : string := rstrip (lstrip s).

(** [s[:n]] for a string and [0 <= n] *)
Fixpoint str_take (n : nat) (s : string) : string :=
  match n, s with
  | S n', String c s' => String c (str_take n' s')
  | _, _ => EmptyString
  end.

(** ** [int(v)] *)

(** The digits of an integer literal: single underscores may separate digits. *)
Fixpoint int_digits (s : string) (acc : Z) (after_digit : bool) : option Z :=
  match s with
  | EmptyString => if after_digit then Some acc else None
  | String c s' =>
      if is_digit c then int_digits s' (10 * acc + digit_val c) true
      else if (c =? "_")%char && after_digit then int_digits s' acc false
      else None
  end.

Definition int_of_string (s : string) : exc Z :=
  let body := strip s in
  let signed :=
    match body with
    | String "-" r => (true, r)
    | String "+" r => (false, r)
    | _ => (false, body)
    end in
  match int_digits (snd signed) 0 false with
  | Some n => Ok (if fst signed then - n else n)
  | None => Raise ValueError
  end.

(** Truncation of a float toward zero; not-a-number and the infinities have
    no integer. *)
Definition int_of_float (f : spec_float) : exc Z :=
  match f with
  | S754_zero _ => Ok 0
  | S754_infinity _ => Raise OverflowError
  | S754_nan => Raise ValueError
  | S754_finite s m e =>
      let a := if 0 <=? e then Z.pos m * 2 ^ e else Z.pos m / 2 ^ (- e) in
      Ok (if s then - a else a)
  end.

Definition py_int (v : json) : exc Z :=
  match v with
  | JInt n => Ok n
  | JBool b => Ok (if b then 1 else 0)
  | JFloat f => int_of_float (fl_value f)
  | JStr s => int_of_string s
  | JNull | JList _ | JDict _ => Raise TypeError
  end.

(** ** [str(v)] *)

Definition str_of_Z (n : Z) : string := NilZero.string_of_int (Z.to_int n).

Definition hex_digit (n : Z) : ascii :=
  ascii_of_nat (Z.to_nat (if n <? 10 then 48 + n else 87 + n)).

Definition printable (c : ascii) : bool :=
  let n := code c in
  negb ((n <? 32) || (n =? 127) || ((128 <=? n) && (n <=? 160)) || (n =? 173)).

Fixpoint contains (c : ascii) (s : string) : bool :=
  match s with
  | EmptyString => false
  | String c' s' => (c =? c')%char || contains c s'
  end.

Fixpoint repr_chars (quote : ascii) (s : string) : string :=
  match s with
  | EmptyString => EmptyString
  | String c s' =>
      let n := code c in
      let e :=
        if (c =? "\")%char || (c =? quote)%char then String "\" (String c "")
        else if n =? 9 then "\t"
        else if n =? 10 then "\n"
        else if n =? 13 then "\r"
        else if printable c then String c ""
        else String "\" (String "x" (String (hex_digit (n / 16))
                                      (String (hex_digit (n mod 16)) "")))
      in (e ++ repr_chars quote s')%string
  end.

Definition double_quote : ascii := ascii_of_nat 34.

(** [repr(s)] of a string: single quotes unless the string has one and no
    double quote. *)
Definition repr_str (s : string) : string :=
  let q := if contains "'" s && negb (contains double_quote s)
           then double_quote else "'"%char in
  String q (repr_chars q s ++ String q "")%string.

Definition float_text (f : pyfloat) : string :=
  String (fl_repr_head f) (fl_repr_tail f).

Fixpoint join (sep : string) (l : list string) : string :=
  match l with
  | [] => ""
  | [x] => x
  | x :: l' => (x ++ sep ++ join sep l')%string
  end.

Fixpoint repr (v : json) : string :=
  match v with
  | JNull => "None"
  | JBool b => if b then "True" else "False"
  | JInt n => str_of_Z n
  | JFloat f => float_text f
  | JStr s => repr_str s
  | JList l => ("[" ++ join ", " (map repr l) ++ "]")%string
  | JDict d =>
      ("{" ++ join ", "
                (map (fun kv => repr_str (fst kv) ++ ": " ++ repr (snd kv)) d)
           ++ "}")%string
  end.

(** [str(v)] *)
Definition py_str (v : json) : string :=
  match v with
  | JStr s => s
  | _ => repr v
  end.

(** ** Instants

    An aware [datetime] is kept as the instant it denotes, in microseconds
    since 1970-01-01T00:00:00Z, and the offset of its [tzinfo] east of UTC, in
    microseconds.  Its calendar fields are computed from the two. *)

Record datetime : Type := {
  epoch_us : Z;
  utcoffset_us : Z
}.

Definition is_leap (y : Z) : bool :=
  ((y mod 4 =? 0) && negb (y mod 100 =? 0)) || (y mod 400 =? 0).

Definition days_in_month (y m : Z) : Z :=
  if m =? 2 then (if is_leap y then 29 else 28)
  else if (m =? 4) || (m =? 6) || (m =? 9) || (m =? 11) then 30
  else 31.

(** Days from 1970-01-01 to the day [y]-[m]-[d] of the proleptic Gregorian
    calendar. *)
Definition days_from_civil (y m d : Z) : Z :=
  let y' := if m <=? 2 then y - 1 else y in
  let era := y' / 400 in
  let yoe := y' - era * 400 in
  let doy := (153 * (if 2 <? m then m - 3 else m + 9) + 2) / 5 + d - 1 in
  let doe := yoe * 365 + yoe / 4 - yoe / 100 + doy in
  era * 146097 + doe - 719468.

(** The day of the proleptic Gregorian calendar that many days after
    1970-01-01: year, month, day. *)
Definition civil_from_days (z : Z) : Z * Z * Z :=
  let z' := z + 719468 in
  let era := z' / 146097 in
  let doe := z' - era * 146097 in
  let yoe := (doe - doe / 1460 + doe / 36524 - doe / 146096) / 365 in
  let doy := doe - (365 * yoe + yoe / 4 - yoe / 100) in
  let mp := (5 * doy + 2) / 153 in
  let d := doy - (153 * mp + 2) / 5 + 1 in
  let m := if mp <? 10 then mp + 3 else mp - 9 in
  ((if m <=? 2 then yoe + era * 400 + 1 else yoe + era * 400), m, d).

Record fields : Type := {
  year : Z; month : Z; day : Z;
  hour : Z; minute : Z; second : Z; microsecond : Z
}.

(** The calendar fields of the instant [us] microseconds after the epoch, read
    on a clock [off] microseconds ahead of UTC. *)
Definition fields_at (off us : Z) : fields :=
  let t := us + off in
  let secs := t / 1000000 in
  let '(y, m, d) := civil_from_days (secs / 86400) in
  let sod := secs mod 86400 in
  {| year := y; month := m; day := d;
     hour := sod / 3600; minute := sod mod 3600 / 60; second := sod mod 60;
     microsecond := t mod 1000000 |}.

(** The fields of [dt.astimezone(timezone.utc)]. *)
Definition utc_fields (dt : datetime) : fields := fields_at 0 (epoch_us dt).

(** The fields of [dt] itself. *)
Definition local_fields (dt : datetime) : fields :=
  fields_at (utcoffset_us dt) (epoch_us dt).

(** Seconds since the epoch of 0001-01-01T00:00:00Z and 9999-12-31T23:59:59Z,
    the first and the last second a [datetime] can hold. *)
Definition MIN_SECONDS : Z := -62135596800.
Definition MAX_SECONDS : Z := 253402300799.

(** [datetime.fromtimestamp(n / 1000.0, tz=timezone.utc)] for an [int] [n].

    The quotient [n / 1000.0] is a binary64 number in the script; here it is
    the exact rational, so the instant is [n] milliseconds exactly.  (The two
    agree while the rounding of the quotient stays below half a microsecond,
    that is for instants before the year 2242.)  An [int] beyond the largest
    float cannot be divided; a quotient outside the years 1 to 9999 is
    refused by [fromtimestamp]. *)
Definition fromtimestamp_ms (n : Z) : exc datetime :=
  if 2 ^ 1024 - 2 ^ 970 <=? Z.abs n then Raise OverflowError
  else if (MIN_SECONDS <=? n / 1000) && (n / 1000 <=? MAX_SECONDS)
  then Ok {| epoch_us := n * 1000; utcoffset_us := 0 |}
  else Raise ValueError.

(** ** [datetime.strptime(s, "%a %b %d %H:%M:%S %z %Y")]

    [strptime] turns the format into a regular expression, matched from the
    start of the string without regard to case, that must consume the whole
    string: [%a] and [%b] are the abbreviated English day and month names,
    a space is [\s+], [%d], [%H], [%M], [%S] are one or two digits, [%z] is
    [Z] or a signed [HHMM] with optional colons, seconds and fraction, [%Y] is
    four digits.  The values are then checked by the constructors of
    [timezone] and [datetime]; the day of the week is not compared with the
    date.  Every failure is a [ValueError]. *)

Definition obind {A B : Type} (c : option A) (k : A -> option B) : option B :=
  match c with
  | Some a => k a
  | None => None
  end.

Notation "' p <-? c ;; k" := (obind c (fun p => k))
  (at level 61, p pattern, c at next level, right associativity).

Definition guard (b : bool) : option unit := if b then Some tt else None.

Definition lower (c : ascii) : ascii :=
  let n := code c in
  if (65 <=? n) && (n <=? 90) then ascii_of_nat (Z.to_nat (n + 32)) else c.

Fixpoint index_of (w : string) (names : list string) (i : Z) : option Z :=
  match names with
  | [] => None
  | x :: names' => if (w =? x)%string then Some i else index_of w names' (i + 1)
  end.

Definition day_abbr : list string :=
  ["mon"; "tue"; "wed"; "thu"; "fri"; "sat"; "sun"].

Definition month_abbr : list string :=
  ["jan"; "feb"; "mar"; "apr"; "may"; "jun";
   "jul"; "aug"; "sep"; "oct"; "nov"; "dec"].

(** One of [names], three letters in any case: its index and the rest. *)
Definition name3 (names : list string) (s : string) : option (Z * string) :=
  match s with
  | String a (String b (String c r)) =>
      'i <-? index_of (String (lower a) (String (lower b) (String (lower c) "")))
                      names 0 ;;
      Some (i, r)
  | _ => None
  end.

(** [\s+] *)
Definition spaces1 (s : string) : option string :=
  match s with
  | String c r => if is_space c then Some (lstrip r) else None
  | EmptyString => None
  end.

(** The longest run of digits at the head of [s], at most [fuel] of them:
    value, number of digits, rest. *)
Fixpoint digit_run (fuel : nat) (s : string) (acc : Z) (len : Z)
  : Z * Z * string :=
  match fuel, s with
  | S fuel', String c r =>
      if is_digit c then digit_run fuel' r (10 * acc + digit_val c) (len + 1)
      else (acc, len, s)
  | _, _ => (acc, len, s)
  end.

(** One or two digits not followed by a third, of value [lo] to [hi]. *)
Definition num2 (lo hi : Z) (s : string) : option (Z * string) :=
  let '(v, len, r) := digit_run 3 s 0 0 in
  '_ <-? guard ((1 <=? len) && (len <=? 2) && (lo <=? v) && (v <=? hi)) ;;
  Some (v, r).

(** A given character. *)
Definition char1 (c : ascii) (s : string) : option string :=
  match s with
  | String c' r => if (c =? c')%char then Some r else None
  | EmptyString => None
  end.

(** [c?]: whether it was there, and the rest. *)
Definition opt_char (c : ascii) (s : string) : bool * string :=
  match char1 c s with
  | Some r => (true, r)
  | None => (false, s)
  end.

(** Exactly [k] digits: value and rest. *)
Definition digits_exact (k : Z) (s : string) : option (Z * string) :=
  let '(v, len, r) := digit_run (Z.to_nat k) s 0 0 in
  '_ <-? guard (len =? k) ;;
  Some (v, r).

(** [[0-5]\d] *)
Definition sixty (s : string) : option (Z * string) :=
  '(v, r) <-? digits_exact 2 s ;;
  '_ <-? guard (v <=? 59) ;;
  Some (v, r).

(** [(\.\d{1,6})?]: the fraction in microseconds, and the rest. *)
Definition tz_fraction (s : string) : Z * string :=
  match char1 "." s with
  | Some r =>
      let '(v, len, r') := digit_run 6 r 0 0 in
      if 1 <=? len then (v * 10 ^ (6 - len), r') else (0, s)
  | None => (0, s)
  end.

(** [%z]: the offset in microseconds, and the rest. *)
Definition tz_offset (s : string) : option (Z * string) :=
  match s with
  | String "Z" r => Some (0, r)
  | String sg r =>
      '_ <-? guard ((sg =? "+")%char || (sg =? "-")%char) ;;
      '(hh, r1) <-? digits_exact 2 r ;;
      let '(colon1, r2) := opt_char ":" r1 in
      '(mm, r3) <-? sixty r2 ;;
      let '(colon2, r4) := opt_char ":" r3 in
      let with_seconds :=
        '(ss, r5) <-? sixty r4 ;;
        let '(frac, r6) := tz_fraction r5 in
        Some (ss, frac, r6, Bool.eqb colon1 colon2) in
      let '(ss, frac, rest, consistent) :=
        match with_seconds with
        | Some x => x
        | None => (0, 0, r3, true)
        end in
      '_ <-? guard consistent ;;
      let off := ((hh * 3600 + mm * 60 + ss) * 1000000 + frac) in
      '_ <-? guard (off <? 86400 * 1000000) ;;
      Some ((if (sg =? "-")%char then - off else off), rest)
  | EmptyString => None
  end.

Definition strptime_str (data_string : string) : option datetime :=
  '(_, r) <-? name3 day_abbr data_string ;;
  'r <-? spaces1 r ;;
  '(b, r) <-? name3 month_abbr r ;;
  'r <-? spaces1 r ;;
  '(dd, r) <-? num2 1 31 r ;;
  'r <-? spaces1 r ;;
  '(hh, r) <-? num2 0 23 r ;;
  'r <-? char1 ":" r ;;
  '(mi, r) <-? num2 0 59 r ;;
  'r <-? char1 ":" r ;;
  '(ss, r) <-? num2 0 61 r ;;
  'r <-? spaces1 r ;;
  '(off, r) <-? tz_offset r ;;
  'r <-? spaces1 r ;;
  '(yy, r) <-? digits_exact 4 r ;;
  '_ <-? guard (r =? "")%string ;;
  let m := b + 1 in
  '_ <-? guard ((1 <=? yy) && (dd <=? days_in_month yy m) && (ss <=? 59)) ;;
  let secs := days_from_civil yy m dd * 86400 + hh * 3600 + mi * 60 + ss in
  Some {| epoch_us := secs * 1000000 - off; utcoffset_us := off |}.

Definition strptime (v : json) : exc datetime :=
  match v with
  | JStr s =>
      match strptime_str s with
      | Some dt => Ok dt
      | None => Raise ValueError
      end
  | _ => Raise TypeError
  end.

(** ** The timestamp extractor *)

Definition is_none (v : json) : bool :=
  match v with JNull => true | _ => false end.

Definition parse_ts (obj : json) : exc (option datetime) :=
  ms <- get obj "timestamp_ms" ;;
  if negb (is_none ms) then
    n <- py_int ms ;;
    dt <- fromtimestamp_ms n ;;
    Ok (Some dt)
  else
    created <- get obj "created_at" ;;
    if truthy created then
      dt <- strptime created ;;
      Ok (Some dt)
    else Ok None.

(** ** The record projector *)

(** The ten columns [extract_row] returns.  A column holds the Python value
    put in the tuple; [coordinates] and [entities] hold [None] or [Json(d)],
    kept here as [None] or [Some d]. *)
Record row : Type := {
  lang : json;
  source : json;
  screen_name : json;
  place : json;
  quote_count : json;
  favorited : json;
  coordinates : option json;
  entities : option json;
  friends_count : json;
  user_id : json
}.

(** [v[:n]]: strings and lists can be sliced, the other values cannot (for a
    [dict] the error is a [KeyError] from Python 3.12 on). *)
Definition slice_to (n : nat) (v : json) : exc json :=
  match v with
  | JStr s => Ok (JStr (str_take n s))
  | JList l => Ok (JList (firstn n l))
  | _ => Raise TypeError
  end.

(** [Json(v) if v and isinstance(v, dict) else None] *)
Definition json_column (v : json) : option json :=
  if truthy v && is_dict v then Some v else None.

Definition extract_row (obj : json) : exc row :=
  u <- get obj "user" ;;
  let user := py_or u (JDict []) in
  place <- get obj "place" ;;
  place_name <- (if truthy place && is_dict place then get place "name"
                 else Ok JNull) ;;
  coords <- get obj "coordinates" ;;
  entities_data <- get obj "entities" ;;
  lang <- get obj "lang" ;;
  src <- get obj "source" ;;
  src100 <- slice_to 100 (py_or src (JStr "")) ;;
  screen_name <- get user "screen_name" ;;
  quote_count <- get obj "quote_count" ;;
  favorited <- get obj "favorited" ;;
  friends_count <- get user "friends_count" ;;
  user_id <- get user "id" ;;
  Ok {| lang := py_or lang (JStr "und");
        source := src100;
        screen_name := screen_name;
        place := place_name;
        quote_count := quote_count;
        favorited := favorited;
        coordinates := json_column coords;
        entities := json_column entities_data;
        friends_count := friends_count;
        user_id := user_id |}.

(** ** The ingestion worker *)

(** One element of a batch: [(ts, id_str, *row)]. *)
Record dbrow : Type := {
  ts : datetime;
  id_str : json;
  cols : row
}.

(** [obj.get("id_str") or str(obj.get("id", ""))] *)
Definition resolve_id (obj : json) : exc json :=
  a <- get obj "id_str" ;;
  if truthy a then Ok a
  else
    b <- get_default obj "id" (JStr "") ;;
    Ok (JStr (py_str b)).

(** [_paginate(seq, page_size)] of [psycopg2.extras]: a page is yielded when
    it holds [page_size] items, and the last one when it is not empty.
    [page] is the page under construction, most recent item first, and
    [room] the number of items it still takes. *)
Fixpoint paginate_from {A : Type} (page_size : nat) (seq : list A)
  (page : list A) (room : nat) : list (list A) :=
  match seq with
  | [] => match page with [] => [] | _ => [rev page] end
  | x :: seq' =>
      match room with
      | O | S O => rev (x :: page) :: paginate_from page_size seq' [] page_size
      | S room' => paginate_from page_size seq' (x :: page) room'
      end
  end.

Definition paginate {A : Type} (seq : list A) (page_size : nat) : list (list A) :=
  paginate_from page_size seq [] page_size.

Section Worker.

(** [json.loads]: the value of a line, or [None] for [json.JSONDecodeError]. *)
Variable json_loads : string -> option json.

(** The store, reached through one connection.  [execute st rows] is
    [cur.execute] of one [INSERT ... VALUES rows ON CONFLICT (ts, id_str) DO
    NOTHING]: the state after it and [cur.rowcount], the number of rows the
    statement inserted, or the error the store answers.  [commit st] is
    [conn.commit()]. *)
Variable db : Type.
Variable execute : db -> list dbrow -> exc (db * Z).
Variable commit : db -> exc db.

(** The file system: the lines [for line in f] yields for a path, or [None]
    when [os.path.isfile] is false. *)
Variable fs : string -> option (list string).

Variable BATCH_SIZE : Z.

(** The connection and its cursor. *)
Record cursor : Type := {
  store : db;
  rowcount : Z
}.

(** [execute_values(cur, INSERT_SQL, argslist, template=...)]: the rows are
    sent in pages of [page_size] rows, 100 when the caller gives none, one
    statement per page; [cur.rowcount] is left at what the last statement
    set. *)
Fixpoint execute_pages (cur : cursor) (pages : list (list dbrow)) : exc cursor :=
  match pages with
  | [] => Ok cur
  | page :: pages' =>
      r <- execute (store cur) page ;;
      execute_pages {| store := fst r; rowcount := snd r |} pages'
  end.

Definition execute_values (cur : cursor) (argslist : list dbrow) : exc cursor :=
  execute_pages cur (paginate argslist 100).

(** The local variables of [process_files].  [flushed] is not one of them: it
    records the argument of every [execute_values] call, oldest first. *)
Record worker : Type := {
  cur : cursor;
  batch : list dbrow;
  inserted : Z;
  skipped : Z;
  read_count : Z;
  flushed : list (list dbrow)
}.

Definition count_read (w : worker) : worker :=
  {| cur := cur w; batch := batch w; inserted := inserted w;
     skipped := skipped w; read_count := read_count w + 1;
     flushed := flushed w |}.

Definition count_skipped (w : worker) : worker :=
  {| cur := cur w; batch := batch w; inserted := inserted w;
     skipped := skipped w + 1; read_count := read_count w;
     flushed := flushed w |}.

Definition append (w : worker) (r : dbrow) : worker :=
  {| cur := cur w; batch := batch w ++ [r]; inserted := inserted w;
     skipped := skipped w; read_count := read_count w;
     flushed := flushed w |}.

(** [execute_values(cur, INSERT_SQL, batch, ...); inserted += cur.rowcount;
    conn.commit(); batch = []] *)
Definition flush (w : worker) : exc worker :=
  c <- execute_values (cur w) (batch w) ;;
  let n := inserted w + rowcount c in
  st <- commit (store c) ;;
  Ok {| cur := {| store := st; rowcount := rowcount c |}; batch := [];
        inserted := n; skipped := skipped w; read_count := read_count w;
        flushed := flushed w ++ [batch w] |}.

(** The body of [for line in f]. *)
Definition process_line (w : worker) (line : string) : exc worker :=
  let line := strip line in
  if (line =? "")%string then Ok w
  else
    let w := count_read w in
    match json_loads line with
    | None => Ok (count_skipped w)
    | Some obj =>
        t <- parse_ts obj ;;
        match t with
        | None => Ok (count_skipped w)
        | Some t =>
            i <- resolve_id obj ;;
            if negb (truthy i) then Ok (count_skipped w)
            else
              r <- extract_row obj ;;
              let w := append w {| ts := t; id_str := i; cols := r |} in
              if BATCH_SIZE <=? Z.of_nat (List.length (batch w)) then flush w
              else Ok w
        end
    end.

Fixpoint process_lines (w : worker) (lines : list string) : exc worker :=
  match lines with
  | [] => Ok w
  | line :: lines' => w' <- process_line w line ;; process_lines w' lines'
  end.

(** The body of [for path in file_paths], iterated. *)
Fixpoint process_paths (w : worker) (file_paths : list string) : exc worker :=
  match file_paths with
  | [] => Ok w
  | path :: file_paths' =>
      match fs path with
      | None => process_paths w file_paths'
      | Some lines =>
          w' <- process_lines w lines ;; process_paths w' file_paths'
      end
  end.

(** A cursor on a new connection: [rowcount] is -1 until a statement runs. *)
Definition connect (st : db) : worker :=
  {| cur := {| store := st; rowcount := -1 |}; batch := [];
     inserted := 0; skipped := 0; read_count := 0; flushed := [] |}.

(** [process_files((file_paths, pg_conn))], on the store [st] that
    [psycopg2.connect(pg_conn)] reaches.  The triple the function returns is
    [counts] of the final state. *)
Definition process_files (file_paths : list string) (st : db) : exc worker :=
  w <- process_paths (connect st) file_paths ;;
  match batch w with
  | [] => Ok w
  | _ => flush w
  end.

Definition counts (w : worker) : Z * Z * Z :=
  (inserted w, skipped w, read_count w).

End Worker.

Arguments store {db} c.
Arguments rowcount {db} c.
Arguments cur {db} w.
Arguments batch {db} w.
Arguments inserted {db} w.
Arguments skipped {db} w.
Arguments read_count {db} w.
Arguments flushed {db} w.
Arguments counts {db} w.
Arguments connect {db} st.
Arguments count_read {db} w.
Arguments count_skipped {db} w.
Arguments append {db} w r.
Arguments execute_pages {db} execute cur pages.
Arguments execute_values {db} execute cur argslist.
Arguments flush {db} execute commit w.
Arguments process_line json_loads {db} execute commit BATCH_SIZE w line.
Arguments process_lines json_loads {db} execute commit BATCH_SIZE w lines.
Arguments process_paths json_loads {db} execute commit fs BATCH_SIZE w file_paths.
Arguments process_files json_loads {db} execute commit fs BATCH_SIZE file_paths st.

(** ** The file partitioner and the worker count of [main] *)

(** [s.endswith(suffix)] *)
Definition endswith (s suffix : string) : bool :=
  let n := String.length s in
  let m := String.length suffix in
  (m <=? n)%nat && (substring (n - m) m s =? suffix)%string.

(** [files.sort()]: strings in the order of their characters' codes. *)
Fixpoint insert_sorted (x : string) (l : list string) : list string :=
  match l with
  | [] => [x]
  | y :: l' => if String.leb x y then x :: l else y :: insert_sorted x l'
  end.

Definition sort (l : list string) : list string :=
  fold_right insert_sorted [] l.

(** An index of a slice, brought into [0 .. n] the way Python does. *)
Definition clamp_index (n i : Z) : Z :=
  if i <? 0 then Z.max 0 (i + n) else Z.min i n.

(** [l[i:j]] *)
Definition slice {A : Type} (l : list A) (i j : Z) : list A :=
  let n := Z.of_nat (List.length l) in
  let i' := clamp_index n i in
  let j' := clamp_index n j in
  firstn (Z.to_nat (j' - i')) (skipn (Z.to_nat i') l).

(** [range(0, stop, step)] for [0 <= stop] *)
Definition range0 (stop step : Z) : exc (list Z) :=
  if step =? 0 then Raise ValueError
  else if step <? 0 then Ok []
  else Ok (map (fun k => Z.of_nat k * step)
               (seq 0 (Z.to_nat ((stop + step - 1) / step)))).

(** [int(os.environ.get("N_WORKERS", "0")) or max(1, cpu_count() - 1)] *)
Definition n_workers (configured cpu_count : Z) : Z :=
  if configured =? 0 then Z.max 1 (cpu_count - 1) else configured.

Record plan : Type := {
  chunks : list (list string);
  pool_size : Z
}.

(** The files [main] keeps of what [glob.glob] found, sorted and capped. *)
Definition discover (MAX_FILES : Z) (globbed : list string) : list string :=
  let files :=
    sort (filter (fun f => negb (endswith f "Zone.Identifier")) globbed) in
  let max_files :=
    if MAX_FILES =? 0 then Z.of_nat (List.length files) else MAX_FILES in
  slice files 0 max_files.

(** [main] up to the creation of the pool: [None] when it returns after
    "No files found.", else the chunks handed to [pool.map] and the
    argument of [Pool], which refuses a size below one. *)
Definition main_plan (CHUNK_SIZE N_WORKERS MAX_FILES : Z)
  (globbed : list string) : exc (option plan) :=
  let files := discover MAX_FILES globbed in
  match files with
  | [] => Ok None
  | _ =>
      let chunk_size := Z.min CHUNK_SIZE (Z.of_nat (List.length files)) in
      starts <- range0 (Z.of_nat (List.length files)) chunk_size ;;
      let chunks := map (fun i => slice files i (i + chunk_size)) starts in
      let n := Z.min N_WORKERS (Z.of_nat (List.length chunks)) in
      if n <? 1 then Raise ValueError
      else Ok (Some {| chunks := chunks; pool_size := n |})
  end.

(** ** A reference store

    A table with the constraint [UNIQUE(ts, id_str)], seen through one
    connection: the rows committed and the rows of the open transaction.  Two
    rows conflict when they denote the same instant and their identifiers
    have the same text.  It accepts every row; it stands for the store in the
    examples. *)
Module Table.

Record t : Type := {
  committed : list dbrow;
  pending : list dbrow
}.

Definition empty : t := {| committed := []; pending := [] |}.

Definition same_key (r r' : dbrow) : bool :=
  (epoch_us (ts r) =? epoch_us (ts r'))
  && (py_str (id_str r) =? py_str (id_str r'))%string.

(** The rows of [rows] that enter the table [tbl], in order. *)
Fixpoint accepted (tbl rows : list dbrow) : list dbrow :=
  match rows with
  | [] => []
  | r :: rows' =>
      if existsb (same_key r) tbl then accepted tbl rows'
      else r :: accepted (tbl ++ [r]) rows'
  end.

Definition execute (st : t) (rows : list dbrow) : exc (t * Z) :=
  let new := accepted (committed st ++ pending st) rows in
  Ok ({| committed := committed st; pending := pending st ++ new |},
      Z.of_nat (List.length new)).

Definition commit (st : t) : exc t :=
  Ok {| committed := committed st ++ pending st; pending := [] |}.

End Table.

(** ** A reference parser

    [Loads.loads] reads the JSON texts that have no fraction, exponent,
    [NaN] or [Infinity] and whose strings hold characters below 256, as
    [json.loads] reads them; for any other text it answers [None], which is
    what [json.loads] does only when the text is not JSON.  It stands for
    [json.loads] in the examples. *)
Module Loads.

Definition is_ws (c : ascii) : bool :=
  let n := code c in (n =? 32) || (n =? 9) || (n =? 10) || (n =? 13).

Fixpoint skip_ws (s : string) : string :=
  match s with
  | String c r => if is_ws c then skip_ws r else s
  | EmptyString => s
  end.

Definition hex_val (c : ascii) : option Z :=
  let n := code c in
  if (48 <=? n) && (n <=? 57) then Some (n - 48)
  else if (97 <=? n) && (n <=? 102) then Some (n - 87)
  else if (65 <=? n) && (n <=? 70) then Some (n - 55)
  else None.

Definition chr (n : Z) : ascii := ascii_of_nat (Z.to_nat n).

(** The characters of a string literal after its opening quote: the string
    and what follows the closing quote. *)
Fixpoint string_body (s : string) : option (string * string) :=
  match s with
  | EmptyString => None
  | String c r =>
      if (c =? double_quote)%char then Some (EmptyString, r)
      else if (c =? "\")%char then
        match r with
        | String "u" (String "0" (String "0" (String h (String l r')))) =>
            'a <-? hex_val h ;;
            'b <-? hex_val l ;;
            '(body, rest) <-? string_body r' ;;
            Some (String (chr (16 * a + b)) body, rest)
        | String e r' =>
            'x <-? (if (e =? double_quote)%char then Some double_quote
                    else if (e =? "\")%char then Some "\"%char
                    else if (e =? "/")%char then Some "/"%char
                    else if (e =? "b")%char then Some (chr 8)
                    else if (e =? "f")%char then Some (chr 12)
                    else if (e =? "n")%char then Some (chr 10)
                    else if (e =? "r")%char then Some (chr 13)
                    else if (e =? "t")%char then Some (chr 9)
                    else None) ;;
            '(body, rest) <-? string_body r' ;;
            Some (String x body, rest)
        | EmptyString => None
        end
      else if code c <? 32 then None
      else
        '(body, rest) <-? string_body r ;;
        Some (String c body, rest)
  end.

(** An optional minus sign and digits, with no leading zero before another
    digit, not followed by a fraction or an exponent. *)
Definition number (s : string) : option (Z * string) :=
  let '(neg, r) := opt_char "-" s in
  let '(v, len, rest) := digit_run (String.length r) r 0 0 in
  '_ <-? guard (1 <=? len) ;;
  '_ <-? guard ((len =? 1) || negb (fst (opt_char "0" r))) ;;
  '_ <-? guard (negb (fst (opt_char "." rest) || fst (opt_char "e" rest)
                      || fst (opt_char "E" rest))) ;;
  Some ((if neg then - v else v), rest).

(** [d[k] = v] *)
Fixpoint dict_set (k : string) (v : json) (d : list (string * json))
  : list (string * json) :=
  match d with
  | [] => [(k, v)]
  | (k', v') :: d' =>
      if (k =? k')%string then (k, v) :: d' else (k', v') :: dict_set k v d'
  end.

Definition literal (word : string) (s : string) : option string :=
  if prefix word s
  then Some (substring (String.length word) (String.length s) s)
  else None.

Section Containers.

(** The parser of a value one level down. *)
Variable value : string -> option (json * string).

(** The elements of an array after [[] or after a comma. *)
Fixpoint elements (fuel : nat) (s : string) (acc : list json)
  : option (json * string) :=
  match fuel with
  | O => None
  | S fuel' =>
      '(v, r) <-? value s ;;
      match skip_ws r with
      | String "," r' => elements fuel' r' (acc ++ [v])
      | String "]" r' => Some (JList (acc ++ [v]), r')
      | _ => None
      end
  end.

(** The members of an object after [{] or after a comma. *)
Fixpoint members (fuel : nat) (s : string) (acc : list (string * json))
  : option (json * string) :=
  match fuel with
  | O => None
  | S fuel' =>
      'r <-? char1 double_quote (skip_ws s) ;;
      '(k, r) <-? string_body r ;;
      'r <-? char1 ":" (skip_ws r) ;;
      '(v, r) <-? value r ;;
      match skip_ws r with
      | String "," r' => members fuel' r' (dict_set k v acc)
      | String "}" r' => Some (JDict (dict_set k v acc), r')
      | _ => None
      end
  end.

End Containers.

Fixpoint value (fuel : nat) (s : string) : option (json * string) :=
  match fuel with
  | O => None
  | S fuel' =>
      match skip_ws s with
      | String "n" _ => 'r <-? literal "null" (skip_ws s) ;; Some (JNull, r)
      | String "t" _ => 'r <-? literal "true" (skip_ws s) ;; Some (JBool true, r)
      | String "f" _ => 'r <-? literal "false" (skip_ws s) ;; Some (JBool false, r)
      | String "[" r =>
          match skip_ws r with
          | String "]" r' => Some (JList [], r')
          | _ => elements (value fuel') (String.length r) r []
          end
      | String "{" r =>
          match skip_ws r with
          | String "}" r' => Some (JDict [], r')
          | _ => members (value fuel') (String.length r) r []
          end
      | String c r =>
          if (c =? double_quote)%char then
            '(body, rest) <-? string_body r ;;
            Some (JStr body, rest)
          else
            '(n, rest) <-? number (skip_ws s) ;;
            Some (JInt n, rest)
      | EmptyString => None
      end
  end.

Definition loads (s : string) : option json :=
  '(v, r) <-? value (String.length s) s ;;
  '_ <-? guard (skip_ws r =? "")%string ;;
  Some v.

End Loads.

(** A JSON text is written below with apostrophes for its double quotes. *)
Definition js (s : string) : string :=
  (fix go (s : string) : string :=
     match s with
     | EmptyString => EmptyString
     | String c r => String (if (c =? "'")%char then double_quote else c) (go r)
     end) s.

(** * Vocabulary of the properties and inputs of the examples *)

(** The value [obj.get(k)] has for the dictionary [d]. *)
Definition field (d : list (string * json)) (k : string) : json :=
  match lookup k d with
  | Some v => v
  | None => JNull
  end.

(** The records [extract_row] accepts: [user] is falsy or a dictionary, and
    [source] is falsy, a string or a list. *)
Definition projectable (d : list (string * json)) : bool :=
  (negb (truthy (field d "user")) || is_dict (field d "user"))
  && match py_or (field d "source") (JStr "") with
     | JStr _ | JList _ => true
     | _ => false
     end.

(** A record with a mapping for [coordinates] and a list for [entities]. *)
Definition nested_record : json :=
  JDict [("coordinates", JDict [("type", JStr "Point")]);
         ("entities", JList [JStr "hashtags"])].

(** Its row. *)
Definition nested_row : row :=
  {| lang := JStr "und"; source := JStr ""; screen_name := JNull;
     place := JNull; quote_count := JNull; favorited := JNull;
     coordinates := Some (JDict [("type", JStr "Point")]);
     entities := None; friends_count := JNull; user_id := JNull |}.

(** A source of 120 characters. *)
Definition long_source : string :=
  (fix go (n : nat) : string :=
     match n with
     | O => EmptyString
     | S n' => String "x" (go n')
     end) 120%nat.

(** A line with a record on it. *)
Definition holds (json_loads : string -> option json) (line : string)
  (obj : json) : Prop :=
  strip line <> "" /\ json_loads (strip line) = Some obj.

(** A data directory with one file, [raw1.json], of the given lines. *)
Definition one_file (lines : list string) (path : string)
  : option (list string) :=
  if (path =? "raw1.json")%string then Some lines else None.

(** The worker on the chunk [["raw1.json"]], with the default batch size and
    an empty table. *)
Definition reference_run (lines : list string) : exc (worker Table.t) :=
  process_files Loads.loads Table.execute Table.commit (one_file lines)
    10000 ["raw1.json"] Table.empty.

Definition good_line : string :=
  js "{'timestamp_ms': 1700000000000, 'id_str': '2'}".

(** A timestamp field that is present and malformed: a [timestamp_ms] that
    [int] refuses with [e], or, without [timestamp_ms], a [created_at] string
    that is not of the fixed format ([e] is then [ValueError]). *)
Definition malformed_timestamp (d : list (string * json)) (e : exn) : Prop :=
  (exists ms,
      lookup "timestamp_ms" d = Some ms /\ ms <> JNull /\ py_int ms = Raise e)
  \/ (field d "timestamp_ms" = JNull /\ e = ValueError
      /\ exists s, lookup "created_at" d = Some (JStr s) /\ s <> ""
                   /\ strptime_str s = None).

(** A record whose [created_at] is a date in another format. *)
Definition bad_created_at : list (string * json) :=
  [("created_at", JStr "2018-10-10 20:19:24"); ("id_str", JStr "1")].

(** The lines [{"timestamp_ms": 1700000000000, "id_str": "k"}] for [k] from 1
    to [n]: as many records, no two with the same key. *)
Definition distinct_lines (n : nat) : list string :=
  map (fun k => js ("{'timestamp_ms': 1700000000000, 'id_str': '"
                    ++ str_of_Z (Z.of_nat k) ++ "'}")%string)
      (seq 1 n).

(** The 45 files [raw1.json] to [raw45.json] and a side file that is not
    data, as [glob.glob] may list them. *)
Definition forty_five_files : list string :=
  "raw7.json:Zone.Identifier"
  :: map (fun k => ("raw" ++ str_of_Z (Z.of_nat k) ++ ".json")%string)
         (seq 1 45).

(** The rows that have reached a batch. *)
Definition appended {db : Type} (w : worker db) : Z :=
  Z.of_nat (List.length (List.concat (flushed w)) + List.length (batch w)).

Definition blank (line : string) : bool := (strip line =? "")%string.

Definition nonblank (lines : list string) : Z :=
  Z.of_nat (List.length (filter (fun l => negb (blank l)) lines)).

(** The lines of the files of a chunk that exist. *)
Definition lines_of (fs : string -> option (list string))
  (file_paths : list string) : list string :=
  flat_map (fun p => match fs p with Some ls => ls | None => [] end)
           file_paths.

(** What holds of the worker between two lines. *)
Record consistent {db : Type} (BATCH_SIZE : Z) (w : worker db) : Prop := {
  read_is_skipped_plus_appended : read_count w = skipped w + appended w;
  inserted_bounded :
    0 <= inserted w <= Z.of_nat (List.length (List.concat (flushed w)));
  batches_bounded :
    Forall (fun b => b <> []
                     /\ (1 <= BATCH_SIZE ->
                         Z.of_nat (List.length b) <= BATCH_SIZE))
           (flushed w);
  batch_open : 1 <= BATCH_SIZE -> Z.of_nat (List.length (batch w)) < BATCH_SIZE
}.

(** ** What becomes of a line

    The decision [process_files] takes on one line, the store left aside. *)

Inductive fate : Type :=
| Blank
| Skip
| Keep (r : dbrow)
| Fail (e : exn).

Definition fate_of (json_loads : string -> option json) (line : string) : fate :=
  if blank line then Blank
  else
    match json_loads (strip line) with
    | None => Skip
    | Some obj =>
        match parse_ts obj with
        | Raise e => Fail e
        | Ok None => Skip
        | Ok (Some t) =>
            match resolve_id obj with
            | Raise e => Fail e
            | Ok i =>
                if truthy i then
                  match extract_row obj with
                  | Raise e => Fail e
                  | Ok r => Keep {| ts := t; id_str := i; cols := r |}
                  end
                else Skip
            end
        end
    end.

(** The rows of the lines that are kept, in the order of the lines. *)
Definition rows_of (json_loads : string -> option json) (lines : list string)
  : list dbrow :=
  flat_map (fun l => match fate_of json_loads l with Keep r => [r] | _ => [] end)
           lines.

(** The number of lines that are skipped. *)
Definition skipped_of (json_loads : string -> option json)
  (lines : list string) : Z :=
  Z.of_nat (List.length
              (filter (fun l => match fate_of json_loads l with
                                | Skip => true
                                | _ => false
                                end) lines)).

(** The exception of the first line that raises one. *)
Fixpoint first_error (json_loads : string -> option json)
  (lines : list string) : option exn :=
  match lines with
  | [] => None
  | l :: lines' =>
      match fate_of json_loads l with
      | Fail e => Some e
      | _ => first_error json_loads lines'
      end
  end.

(** A file with a record, a blank line, a line that is not JSON, a record
    without timestamp, the first record again and two more records. *)
Definition demo_lines : list string :=
  [good_line; "   "; "not json"; js "{'id': 7}"; good_line;
   js "{'timestamp_ms': '1700000000001', 'id': 3}";
   js "{'created_at': 'Wed Oct 10 20:19:24 +0000 2018', 'id_str': 'a'}"].

(** The same records under batch size [n] on the reference store. *)
Definition demo_run (n : Z) : exc (worker Table.t) :=
  process_files Loads.loads Table.execute Table.commit (one_file demo_lines)
    n ["raw1.json"] Table.empty.

(** A record with a place and a user, and its row. *)
Definition placed_record : list (string * json) :=
  [("place", JDict [("name", JStr "Paris"); ("country", JStr "France")]);
   ("user", JDict [("id", JInt 12); ("screen_name", JStr "jack")])].

Definition placed_row : row :=
  {| lang := JStr "und"; source := JStr ""; screen_name := JStr "jack";
     place := JStr "Paris"; quote_count := JNull; favorited := JNull;
     coordinates := None; entities := None; friends_count := JNull;
     user_id := JInt 12 |}.

(** Two files whose lines are those of [demo_lines], with blank lines. *)
Definition two_files (path : string) : option (list string) :=
  if (path =? "raw1.json")%string then Some (firstn 3 demo_lines ++ [""])
  else if (path =? "raw2.json")%string then Some ("  " :: skipn 3 demo_lines)
  else None.

(** ** The report of [main]

    [pool.map(process_files, worker_args)] gives the triple of the worker of
    every chunk, in the order of the chunks, and [main] adds them up: the
    totals of [inserted], of [skipped] and of [read]. *)

Definition sum (l : list Z) : Z := fold_right Z.add 0 l.

Definition totals (results : list (Z * Z * Z)) : Z * Z * Z :=
  (sum (map (fun r => fst (fst r)) results),
   sum (map (fun r => snd (fst r)) results),
   sum (map (fun r => snd r) results)).

(** The workers of the chunks have returned [ws], each on its own
    connection, whatever the store held when it ran. *)
Definition pool_map (json_loads : string -> option json) {db : Type}
  (execute : db -> list dbrow -> exc (db * Z)) (commit : db -> exc db)
  (fs : string -> option (list string)) (BATCH_SIZE : Z)
  (chunks : list (list string)) (ws : list (worker db)) : Prop :=
  Forall2 (fun chunk w =>
             exists st,
               process_files json_loads execute commit fs BATCH_SIZE chunk st
               = Ok w)
          chunks ws.

(** The order of [files.sort()]. *)
Definition str_le (a b : string) : Prop := String.leb a b = true.

(** Whether [main] keeps a path [glob.glob] found. *)
Definition is_data_file (f : string) : bool :=
  negb (endswith f "Zone.Identifier").

(** Three files of a data directory, two records each but the last. *)
Definition three_files (path : string) : option (list string) :=
  if (path =? "raw1.json")%string then Some [good_line; "not json"]
  else if (path =? "raw2.json")%string
  then Some [js "{'timestamp_ms': 1, 'id_str': 'x'}"; ""; js "{'id': 7}"]
  else if (path =? "raw3.json")%string
  then Some [js "{'timestamp_ms': 2, 'id_str': 'y'}"]
  else None.

(** ** The sequential script, [scripts/ingest/backfill.py]

    [main] of [backfill.py] reads the files one after the other and inserts
    every record with a statement of its own, [INSERT INTO tweets (ts, id_str,
    data) ... ON CONFLICT (ts, id_str) DO NOTHING], the record itself being
    the [data] column.  It commits after every file and once more at the
    end. *)

Record legacy_row : Type := {
  l_ts : datetime;
  l_id_str : json;
  l_data : json
}.

(** What the store does with one statement: it runs it and sets
    [cur.rowcount], or raises [psycopg2.IntegrityError], or raises another
    exception. *)
Inductive answer (db : Type) : Type :=
| Answered (st : db) (rowcount : Z)
| IntegrityError (st : db)
| Failed (e : exn).

Arguments Answered {db} st rowcount.
Arguments IntegrityError {db} st.
Arguments Failed {db} e.

(** How [main] ends when it does not reach its last line: an exception of a
    line or of the store, or a path that [open] cannot open. *)
Inductive stop : Type :=
| Uncaught (e : exn)
| CannotOpen (path : string).

Inductive outcome (A : Type) : Type :=
| Done (a : A)
| Stopped (s : stop).

Arguments Done {A} a.
Arguments Stopped {A} s.

Section Sequential.

Variable json_loads : string -> option json.
Variable db : Type.
Variable execute1 : db -> legacy_row -> answer db.
Variable commit : db -> exc db.
Variable rollback : db -> exc db.
Variable fs : string -> option (list string).

(** The local variables of [main].  [sent] is not one of them: it records
    the rows of the statements, oldest first. *)
Record sequential : Type := {
  s_store : db;
  s_inserted : Z;
  s_skipped : Z;
  s_sent : list legacy_row
}.

Definition seq_skip (s : sequential) : sequential :=
  {| s_store := s_store s; s_inserted := s_inserted s;
     s_skipped := s_skipped s + 1; s_sent := s_sent s |}.

(** The body of [for line in f]. *)
Definition seq_line (s : sequential) (line : string) : exc sequential :=
  let line := strip line in
  if (line =? "")%string then Ok s
  else
    match json_loads line with
    | None => Ok (seq_skip s)
    | Some obj =>
        t <- parse_ts obj ;;
        match t with
        | None => Ok (seq_skip s)
        | Some t =>
            i <- resolve_id obj ;;
            if negb (truthy i) then Ok (seq_skip s)
            else
              let r := {| l_ts := t; l_id_str := i; l_data := obj |} in
              match execute1 (s_store s) r with
              | Answered st n =>
                  Ok {| s_store := st;
                        s_inserted := if negb (n =? 0) then s_inserted s + 1
                                      else s_inserted s;
                        s_skipped := s_skipped s;
                        s_sent := s_sent s ++ [r] |}
              | IntegrityError st =>
                  st' <- rollback st ;;
                  Ok {| s_store := st'; s_inserted := s_inserted s;
                        s_skipped := s_skipped s + 1;
                        s_sent := s_sent s ++ [r] |}
              | Failed e => Raise e
              end
        end
    end.

Fixpoint seq_lines (s : sequential) (lines : list string) : exc sequential :=
  match lines with
  | [] => Ok s
  | line :: lines' => s' <- seq_line s line ;; seq_lines s' lines'
  end.

Definition seq_commit (s : sequential) : exc sequential :=
  st <- commit (s_store s) ;;
  Ok {| s_store := st; s_inserted := s_inserted s;
        s_skipped := s_skipped s; s_sent := s_sent s |}.

Definition lift {A : Type} (c : exc A) : outcome A :=
  match c with
  | Ok a => Done a
  | Raise e => Stopped (Uncaught e)
  end.

(** The body of [for path in files], iterated: the file is opened, read and
    committed. *)
Fixpoint seq_files (s : sequential) (files : list string) : outcome sequential :=
  match files with
  | [] => Done s
  | path :: files' =>
      match fs path with
      | None => Stopped (CannotOpen path)
      | Some lines =>
          match lift (s' <- seq_lines s lines ;; seq_commit s') with
          | Done s' => seq_files s' files'
          | Stopped x => Stopped x
          end
      end
  end.

(** [main] of [backfill.py] from the sorted list of files on, on the store
    [st]; it prints [s_inserted] and [s_skipped] of the state it ends in. *)
Definition seq_main (files : list string) (st : db) : outcome sequential :=
  match seq_files {| s_store := st; s_inserted := 0; s_skipped := 0;
                     s_sent := [] |} files with
  | Done s => lift (seq_commit s)
  | Stopped x => Stopped x
  end.

End Sequential.

Arguments s_store {db} s.
Arguments s_inserted {db} s.
Arguments s_skipped {db} s.
Arguments s_sent {db} s.
Arguments seq_skip {db} s.
Arguments seq_line json_loads {db} execute1 rollback s line.
Arguments seq_lines json_loads {db} execute1 rollback s lines.
Arguments seq_commit {db} commit s.
Arguments seq_files json_loads {db} execute1 commit rollback fs s files.
Arguments seq_main json_loads {db} execute1 commit rollback fs files st.

(** What becomes of a line in the sequential script, the store left aside. *)
Inductive seq_fate : Type :=
| SBlank
| SSkip
| SSend (r : legacy_row)
| SFail (e : exn).

Definition seq_fate_of (json_loads : string -> option json) (line : string)
  : seq_fate :=
  if blank line then SBlank
  else
    match json_loads (strip line) with
    | None => SSkip
    | Some obj =>
        match parse_ts obj with
        | Raise e => SFail e
        | Ok None => SSkip
        | Ok (Some t) =>
            match resolve_id obj with
            | Raise e => SFail e
            | Ok i =>
                if truthy i
                then SSend {| l_ts := t; l_id_str := i; l_data := obj |}
                else SSkip
            end
        end
    end.

(** The rows the sequential script sends for the lines. *)
Definition legacy_rows_of (json_loads : string -> option json)
  (lines : list string) : list legacy_row :=
  flat_map (fun l => match seq_fate_of json_loads l with
                     | SSend r => [r]
                     | _ => []
                     end) lines.

(** The number of lines the sequential script skips before the store. *)
Definition seq_skipped_of (json_loads : string -> option json)
  (lines : list string) : Z :=
  Z.of_nat (List.length
              (filter (fun l => match seq_fate_of json_loads l with
                                | SSkip => true
                                | _ => false
                                end) lines)).

(** The first line at which the sequential script raises, if any. *)
Fixpoint seq_first_error (json_loads : string -> option json)
  (lines : list string) : option exn :=
  match lines with
  | [] => None
  | l :: lines' =>
      match seq_fate_of json_loads l with
      | SFail e => Some e
      | _ => seq_first_error json_loads lines'
      end
  end.

(** The first thing that stops the sequential script on a store that never
    raises: a path that cannot be opened, or a line that raises. *)
Fixpoint first_stop (json_loads : string -> option json)
  (fs : string -> option (list string)) (files : list string) : option stop :=
  match files with
  | [] => None
  | path :: files' =>
      match fs path with
      | None => Some (CannotOpen path)
      | Some lines =>
          match seq_first_error json_loads lines with
          | Some e => Some (Uncaught e)
          | None => first_stop json_loads fs files'
          end
      end
  end.

(** What holds of the state of the sequential [main] before ([s]) and after
    ([s']) it has read [lines]. *)
Record seq_related {db : Type} (json_loads : string -> option json)
  (lines : list string) (s s' : sequential db) : Prop := {
  sent_rows : s_sent s' = s_sent s ++ legacy_rows_of json_loads lines;
  inserted_grows : s_inserted s <= s_inserted s';
  skipped_grows :
    s_skipped s + seq_skipped_of json_loads lines <= s_skipped s';
  counted_once :
    (s_inserted s' - s_inserted s) + (s_skipped s' - s_skipped s)
    <= nonblank lines;
  no_failure :
    nonblank lines
    = seq_skipped_of json_loads lines
      + Z.of_nat (List.length (legacy_rows_of json_loads lines))
}.

(** ** A reference store for the sequential script

    The legacy table, with [UNIQUE(ts, id_str)], seen through one
    connection; it never raises. *)
Module LegacyTable.

Record t : Type := {
  committed : list legacy_row;
  pending : list legacy_row
}.

Definition empty : t := {| committed := []; pending := [] |}.

Definition same_key (r r' : legacy_row) : bool :=
  (epoch_us (l_ts r) =? epoch_us (l_ts r'))
  && (py_str (l_id_str r) =? py_str (l_id_str r'))%string.

Definition execute1 (st : t) (r : legacy_row) : answer t :=
  if existsb (same_key r) (committed st ++ pending st)
  then Answered st 0
  else Answered {| committed := committed st; pending := pending st ++ [r] |} 1.

Definition commit (st : t) : exc t :=
  Ok {| committed := committed st ++ pending st; pending := [] |}.

Definition rollback (st : t) : exc t :=
  Ok {| committed := committed st; pending := [] |}.

(** The rows of [rows] that enter the table [tbl], in order. *)
Fixpoint accepted (tbl rows : list legacy_row) : list legacy_row :=
  match rows with
  | [] => []
  | r :: rows' =>
      if existsb (same_key r) tbl then accepted tbl rows'
      else r :: accepted (tbl ++ [r]) rows'
  end.

End LegacyTable.

(** The sequential script on the reference parser and the legacy table. *)
Definition legacy_run (fs : string -> option (list string))
  (files : list string) : outcome (sequential LegacyTable.t) :=
  seq_main Loads.loads LegacyTable.execute1 LegacyTable.commit
    LegacyTable.rollback fs files LegacyTable.empty.

(** * Properties *)

(** ** The model on examples *)

Example int_of_string_examples :
  int_of_string "1700000000000" = Ok 1700000000000
  /\ int_of_string "  -1_000 " = Ok (-1000)
  /\ int_of_string "1__0" = Raise ValueError
  /\ int_of_string "12.5" = Raise ValueError
  /\ int_of_string "abc" = Raise ValueError
  /\ int_of_string "" = Raise ValueError.
Proof. repeat split. Qed.

Example py_str_examples :
  py_str JNull = "None"
  /\ py_str (JBool true) = "True"
  /\ py_str (JInt 7) = "7"
  /\ py_str (JInt (-12)) = "-12"
  /\ py_str (JStr "") = ""
  /\ py_str (JList [JInt 1; JStr "a"; JNull]) = "[1, 'a', None]"
  /\ py_str (JDict [("k", JList [])]) = "{'k': []}".
Proof. repeat split. Qed.

Example datetime_range :
  days_from_civil 1 1 1 * 86400 = MIN_SECONDS
  /\ days_from_civil 9999 12 31 * 86400 + 86399 = MAX_SECONDS
  /\ year (fields_at 0 (MIN_SECONDS * 1000000)) = 1
  /\ year (fields_at 0 (MAX_SECONDS * 1000000)) = 9999
  /\ year (fields_at 0 ((MAX_SECONDS + 1) * 1000000)) = 10000.
Proof. repeat split. Qed.

Example strptime_examples :
  strptime_str "Wed Oct 10 20:19:24 +0000 2018"
  = Some {| epoch_us := 1539202764000000; utcoffset_us := 0 |}
  /\ option_map utc_fields (strptime_str "Wed Oct 10 20:19:24 +0200 2018")
     = Some {| year := 2018; month := 10; day := 10;
               hour := 18; minute := 19; second := 24; microsecond := 0 |}
  /\ option_map local_fields (strptime_str "wed oct  1 2:03:04 -05:30 2018")
     = Some {| year := 2018; month := 10; day := 1;
               hour := 2; minute := 3; second := 4; microsecond := 0 |}
  /\ strptime_str "Wed Oct 10 20:19:24 +0000 2018 " = None
  /\ strptime_str "Wed Oct 32 20:19:24 +0000 2018" = None
  /\ strptime_str "Thu Feb 29 20:19:24 +0000 2019" = None
  /\ strptime_str "2018-10-10 20:19:24" = None
  /\ strptime_str "yesterday" = None.
Proof. repeat split. Qed.

Example parse_ts_examples :
  parse_ts (JDict [("timestamp_ms", JInt 1700000000000);
                   ("created_at", JStr "yesterday")])
  = Ok (Some {| epoch_us := 1700000000000000; utcoffset_us := 0 |})
  /\ parse_ts (JDict [("timestamp_ms", JNull);
                      ("created_at", JStr "Tue Nov 14 22:13:20 +0000 2023")])
     = Ok (Some {| epoch_us := 1700000000000000; utcoffset_us := 0 |})
  /\ parse_ts (JDict [("created_at", JStr "")]) = Ok None
  /\ parse_ts (JDict [("created_at", JInt 5)]) = Raise TypeError
  /\ parse_ts (JDict [("timestamp_ms", JList [])]) = Raise TypeError
  /\ parse_ts (JList []) = Raise AttributeError.
Proof. repeat split. Qed.

Example paginate_example :
  map (@List.length Z) (paginate (map Z.of_nat (seq 0 250)) 100)
  = [100; 100; 50]%nat.
Proof. reflexivity. Qed.

Example loads_examples :
  Loads.loads (js "{'id': 7}") = Some (JDict [("id", JInt 7)])
  /\ Loads.loads (js " {'a': [1, -2, null], 'b': {'c': true}, 'a': 'x'} ")
     = Some (JDict [("a", JStr "x"); ("b", JDict [("c", JBool true)])])
  /\ Loads.loads (js "{'id': 7") = None
  /\ Loads.loads (js "{'id': 07}") = None
  /\ Loads.loads "not json" = None.
Proof. repeat split. Qed.

Example main_plan_example :
  main_plan 2 8 0 ["raw3.json"; "raw10.json"; "raw1.json";
                   "raw1.json:Zone.Identifier"; "raw4.json"; "raw7.json"]
  = Ok (Some {| chunks := [["raw1.json"; "raw10.json"];
                           ["raw3.json"; "raw4.json"]; ["raw7.json"]];
                pool_size := 3 |})
  /\ main_plan 2 8 0 [] = Ok None
  /\ main_plan 0 8 0 ["raw1.json"] = Raise ValueError.
Proof. repeat split. Qed.

(** ** Reading a field *)

Lemma get_dict (d : list (string * json)) (k : string) :
  get (JDict d) k = Ok (field d k).
Proof. reflexivity. Qed.

Lemma get_ok_dict (obj : json) (k : string) (v : json) :
  get obj k = Ok v -> exists d, obj = JDict d.
Proof. destruct obj; simpl; try discriminate. intros _. now exists d. Qed.

Lemma field_some (d : list (string * json)) (k : string) (v : json) :
  lookup k d = Some v -> field d k = v.
Proof. unfold field. now intros ->. Qed.

Lemma field_none (d : list (string * json)) (k : string) :
  lookup k d = None -> field d k = JNull.
Proof. unfold field. now intros ->. Qed.

Lemma is_none_false (v : json) : v <> JNull -> is_none v = false.
Proof. destruct v; simpl; congruence. Qed.

(** ** The timestamp extractor *)

Lemma parse_ts_ms (d : list (string * json)) (ms : json) :
  lookup "timestamp_ms" d = Some ms -> ms <> JNull ->
  parse_ts (JDict d) =
  (n <- py_int ms ;; dt <- fromtimestamp_ms n ;; Ok (Some dt)).
Proof.
  intros Hms Hnn. unfold parse_ts. rewrite get_dict, (field_some _ _ _ Hms).
  simpl. now rewrite (is_none_false _ Hnn).
Qed.

Lemma parse_ts_created (d : list (string * json)) :
  field d "timestamp_ms" = JNull ->
  parse_ts (JDict d) =
  (if truthy (field d "created_at")
   then dt <- strptime (field d "created_at") ;; Ok (Some dt)
   else Ok None).
Proof.
  intros Hms. unfold parse_ts. rewrite !get_dict, Hms. reflexivity.
Qed.

Lemma fromtimestamp_ms_in_range (n : Z) :
  MIN_SECONDS <= n / 1000 <= MAX_SECONDS ->
  fromtimestamp_ms n = Ok {| epoch_us := n * 1000; utcoffset_us := 0 |}.
Proof.
  unfold fromtimestamp_ms, MIN_SECONDS, MAX_SECONDS. intros [Hlo Hhi].
  assert (Hn : -62135596800 * 1000 <= n < (253402300799 + 1) * 1000).
  { pose proof (Z.div_mod n 1000 ltac:(lia)).
    pose proof (Z.mod_pos_bound n 1000 ltac:(lia)). lia. }
  assert (Hbig : 2 ^ 80 <= 2 ^ 1024 - 2 ^ 970).
  { replace (2 ^ 1024) with (2 ^ 970 * 2 ^ 54) by (rewrite <- Z.pow_add_r; [reflexivity | lia | lia]).
    assert (2 ^ 80 <= 2 ^ 970) by (apply Z.pow_le_mono_r; lia).
    assert (2 <= 2 ^ 54) by (change 2 with (2 ^ 1) at 1; apply Z.pow_le_mono_r; lia).
    nia. }
  assert (H80 : 2 ^ 80 = 1208925819614629174706176) by reflexivity.
  destruct (Z.leb_spec (2 ^ 1024 - 2 ^ 970) (Z.abs n)) as [Habs | _]; [lia |].
  destruct (Z.leb_spec (-62135596800) (n / 1000)); [| lia].
  destruct (Z.leb_spec (n / 1000) 253402300799); [| lia].
  reflexivity.
Qed.

Lemma fromtimestamp_ms_out_of_range (n : Z) :
  MAX_SECONDS < n / 1000 -> exists e, fromtimestamp_ms n = Raise e.
Proof.
  unfold fromtimestamp_ms, MAX_SECONDS. intros H.
  destruct (_ <=? Z.abs n); [now eexists |].
  destruct (Z.leb_spec (n / 1000) 253402300799); [lia |].
  rewrite andb_false_r. now eexists.
Qed.

Lemma strptime_str_nonempty (s : string) (dt : datetime) :
  strptime_str s = Some dt -> s <> "".
Proof. intros H ->. discriminate. Qed.

Lemma truthy_str (s : string) : s <> "" -> truthy (JStr s) = true.
Proof.
  intros H. simpl. destruct (String.eqb_spec s ""); [contradiction | reflexivity].
Qed.

Lemma parse_ts_absent (d : list (string * json)) :
  lookup "timestamp_ms" d = None -> lookup "created_at" d = None ->
  parse_ts (JDict d) = Ok None.
Proof.
  intros Hms Hc.
  rewrite (parse_ts_created _ (field_none _ _ Hms)), (field_none _ _ Hc).
  reflexivity.
Qed.




(** ** The record projector *)

(** What [extract_row] computes for a dictionary, the calls that cannot fail
    carried out. *)
Lemma extract_row_dict (d : list (string * json)) :
  extract_row (JDict d) =
  (let user := py_or (field d "user") (JDict []) in
   let place := field d "place" in
   place_name <- (if truthy place && is_dict place then get place "name"
                  else Ok JNull) ;;
   src100 <- slice_to 100 (py_or (field d "source") (JStr "")) ;;
   screen_name <- get user "screen_name" ;;
   friends_count <- get user "friends_count" ;;
   user_id <- get user "id" ;;
   Ok {| lang := py_or (field d "lang") (JStr "und");
         source := src100;
         screen_name := screen_name;
         place := place_name;
         quote_count := field d "quote_count";
         favorited := field d "favorited";
         coordinates := json_column (field d "coordinates");
         entities := json_column (field d "entities");
         friends_count := friends_count;
         user_id := user_id |}).
Proof.
  unfold extract_row. rewrite !get_dict. cbn [bind].
  destruct (if truthy (field d "place") && is_dict (field d "place")
            then get (field d "place") "name" else Ok JNull); [| reflexivity].
  cbn [bind].
  destruct (slice_to 100 (py_or (field d "source") (JStr ""))); [| reflexivity].
  cbn [bind].
  destruct (get (py_or (field d "user") (JDict [])) "screen_name");
    reflexivity.
Qed.

(** What a returned row says of the record. *)
Lemma extract_row_inv (obj : json) (r : row) :
  extract_row obj = Ok r ->
  exists d,
    obj = JDict d
    /\ slice_to 100 (py_or (field d "source") (JStr "")) = Ok (source r)
    /\ lang r = py_or (field d "lang") (JStr "und")
    /\ coordinates r = json_column (field d "coordinates")
    /\ entities r = json_column (field d "entities")
    /\ quote_count r = field d "quote_count"
    /\ favorited r = field d "favorited"
    /\ get (py_or (field d "user") (JDict [])) "screen_name"
       = Ok (screen_name r).
Proof.
  intros H.
  assert (Hd : exists d, obj = JDict d).
  { destruct obj; try discriminate H. now eexists. }
  destruct Hd as [d ->]. exists d. split; [reflexivity |].
  rewrite extract_row_dict in H. cbn zeta in H.
  destruct (if truthy (field d "place") && is_dict (field d "place")
            then get (field d "place") "name" else Ok JNull);
    [| discriminate H].
  cbn [bind] in H.
  destruct (slice_to 100 (py_or (field d "source") (JStr "")));
    [| discriminate H].
  cbn [bind] in H.
  destruct (get (py_or (field d "user") (JDict [])) "screen_name");
    [| discriminate H].
  cbn [bind] in H.
  destruct (get (py_or (field d "user") (JDict [])) "friends_count");
    [| discriminate H].
  cbn [bind] in H.
  destruct (get (py_or (field d "user") (JDict [])) "id");
    [| discriminate H].
  cbn [bind] in H. injection H as <-. cbn. repeat split; reflexivity.
Qed.

Lemma extract_row_projectable (d : list (string * json)) :
  projectable d = true -> exists r, extract_row (JDict d) = Ok r.
Proof.
  unfold projectable. intros H. apply andb_prop in H as [Hu Hs].
  rewrite extract_row_dict. cbn zeta.
  assert (Hp : exists v,
             (if truthy (field d "place") && is_dict (field d "place")
              then get (field d "place") "name" else Ok JNull) = Ok v).
  { destruct (truthy (field d "place")); cbn [andb]; [| now eexists].
    destruct (field d "place"); cbn; now eexists. }
  destruct Hp as [pl ->]. cbn [bind].
  assert (Hsl : exists v,
             slice_to 100 (py_or (field d "source") (JStr "")) = Ok v).
  { destruct (py_or (field d "source") (JStr "")); try discriminate Hs;
      cbn; now eexists. }
  destruct Hsl as [sv ->]. cbn [bind].
  assert (Hud : exists u, py_or (field d "user") (JDict []) = JDict u).
  { unfold py_or. destruct (truthy (field d "user")); [| now eexists].
    cbn in Hu. destruct (field d "user"); try discriminate Hu. now eexists. }
  destruct Hud as [u ->]. cbn. now eexists.
Qed.

Lemma extract_row_ok_projectable (d : list (string * json)) (r : row) :
  extract_row (JDict d) = Ok r -> projectable d = true.
Proof.
  intros H. apply extract_row_inv in H as (d' & Hd & Hs & _ & _ & _ & _ & _ & Hu).
  injection Hd as <-. unfold projectable. apply andb_true_intro. split.
  - unfold py_or in Hu. destruct (truthy (field d "user")); [| reflexivity].
    destruct (field d "user"); try discriminate Hu. reflexivity.
  - destruct (py_or (field d "source") (JStr "")); try discriminate Hs;
      reflexivity.
Qed.

(** C2 fails on the code: [extract_row] raises on a record whose [user] is a
    string ([AttributeError], a string has no [get]) and on one whose
    [source] is a number ([TypeError], a number cannot be sliced), where
    [place], [coordinates] and [entities] of a wrong shape become null; the
    worker does not catch the exception, and a line with such a record ends
    its run. *)
Theorem extract_row_raises :
  extract_row (JDict [("user", JStr "someone")]) = Raise AttributeError
  /\ extract_row (JDict [("source", JInt 5)]) = Raise TypeError
  /\ (exists r, extract_row (JDict [("place", JStr "Paris");
                                    ("coordinates", JList [JInt 1; JInt 2]);
                                    ("entities", JInt 3)]) = Ok r
                /\ place r = JNull /\ coordinates r = None
                /\ entities r = None)
  /\ reference_run
       [js "{'timestamp_ms': 1700000000000, 'id_str': '1', 'user': 'someone'}";
        good_line]
     = Raise AttributeError.
Proof.
  split; [reflexivity | split; [reflexivity | split]].
  - eexists. split; [reflexivity |]. repeat split.
  - vm_compute. reflexivity.
Qed.

Lemma json_column_some (v c : json) :
  json_column v = Some c <-> c = v /\ exists kv m, v = JDict (kv :: m).
Proof.
  unfold json_column. split.
  - destruct v; cbn; try discriminate; try (destruct b; discriminate).
    + destruct (negb (n =? 0)); discriminate.
    + destruct (fl_value f); discriminate.
    + destruct (negb (s =? "")%string); discriminate.
    + destruct l; discriminate.
    + destruct d as [| kv m]; [discriminate |]. intros [= <-].
      split; [reflexivity | now exists kv, m].
  - intros [-> (kv & m & ->)]. reflexivity.
Qed.

Lemma json_column_not_none (v : json) :
  json_column v <> None <-> exists kv m, v = JDict (kv :: m).
Proof.
  split.
  - destruct (json_column v) as [c |] eqn:E; [| congruence].
    intros _. now apply json_column_some in E as [_ H].
  - intros (kv & m & ->). discriminate.
Qed.

Lemma field_dict_lookup (d : list (string * json)) (k : string)
  (x : list (string * json)) :
  field d k = JDict x <-> lookup k d = Some (JDict x).
Proof.
  unfold field. destruct (lookup k d); split; congruence.
Qed.

(** C5, as the script has it.  In the row of a record, [coordinates] and
    [entities] are not null exactly when the raw value is present and is a
    mapping with at least one key, and they then hold the raw value; a list,
    a scalar, an empty mapping or no value at all gives null. *)
Theorem nested_columns (obj : json) (r : row) :
  extract_row obj = Ok r ->
  exists d,
    obj = JDict d
    /\ (coordinates r <> None
        <-> exists kv m, lookup "coordinates" d = Some (JDict (kv :: m)))
    /\ (forall c, coordinates r = Some c -> lookup "coordinates" d = Some c)
    /\ (entities r <> None
        <-> exists kv m, lookup "entities" d = Some (JDict (kv :: m)))
    /\ (forall c, entities r = Some c -> lookup "entities" d = Some c).
Proof.
  intros H. apply extract_row_inv in H as (d & -> & _ & _ & Hc & He & _).
  exists d. split; [reflexivity |]. rewrite Hc, He.
  repeat split.
  - intros Hn. apply json_column_not_none in Hn as (kv & m & Hn).
    exists kv, m. now apply field_dict_lookup.
  - intros (kv & m & Hn). apply json_column_not_none. exists kv, m.
    now apply field_dict_lookup.
  - intros c Hs. apply json_column_some in Hs as [-> (kv & m & Hs)].
    rewrite Hs. now apply field_dict_lookup.
  - intros Hn. apply json_column_not_none in Hn as (kv & m & Hn).
    exists kv, m. now apply field_dict_lookup.
  - intros (kv & m & Hn). apply json_column_not_none. exists kv, m.
    now apply field_dict_lookup.
  - intros c Hs. apply json_column_some in Hs as [-> (kv & m & Hs)].
    rewrite Hs. now apply field_dict_lookup.
Qed.

Lemma nested_columns_witness :
  exists d,
    nested_record = JDict d
    /\ (coordinates nested_row <> None
        <-> exists kv m, lookup "coordinates" d = Some (JDict (kv :: m)))
    /\ (forall c, coordinates nested_row = Some c ->
                  lookup "coordinates" d = Some c)
    /\ (entities nested_row <> None
        <-> exists kv m, lookup "entities" d = Some (JDict (kv :: m)))
    /\ (forall c, entities nested_row = Some c ->
                  lookup "entities" d = Some c).
Proof. apply (nested_columns nested_record nested_row). reflexivity. Defined.

(** C5 as stated fails: an empty mapping is present and is a mapping, and
    the column is null. *)
Lemma empty_mapping_is_null :
  lookup "coordinates" [("coordinates", JDict [])] = Some (JDict [])
  /\ is_dict (JDict []) = true
  /\ extract_row (JDict [("coordinates", JDict [])])
     = Ok {| lang := JStr "und"; source := JStr ""; screen_name := JNull;
             place := JNull; quote_count := JNull; favorited := JNull;
             coordinates := None; entities := None;
             friends_count := JNull; user_id := JNull |}.
Proof. repeat split. Qed.

Lemma str_take_length (n : nat) (s : string) :
  (n <= String.length s)%nat -> String.length (str_take n s) = n.
Proof.
  revert s. induction n as [| n IH]; intros s H; [reflexivity |].
  destruct s as [| c s]; cbn in *; [lia |]. rewrite IH; lia.
Qed.

Lemma str_take_all (n : nat) (s : string) :
  (String.length s <= n)%nat -> str_take n s = s.
Proof.
  revert s. induction n as [| n IH]; intros s H.
  - destruct s; cbn in *; [reflexivity | lia].
  - destruct s as [| c s]; cbn in *; [reflexivity |]. rewrite IH; [reflexivity | lia].
Qed.



(** ** The ingestion worker *)

Lemma str_of_Z_nonempty (n : Z) : str_of_Z n <> "".
Proof.
  unfold str_of_Z. destruct (Z.to_int n) as [u | u]; destruct u; discriminate.
Qed.

(** [str(v)] is empty for the empty string only. *)
Lemma py_str_empty (v : json) : py_str v = "" <-> v = JStr "".
Proof.
  split; [| now intros ->].
  destruct v; cbn; try discriminate.
  - destruct b; discriminate.
  - intros H. now apply str_of_Z_nonempty in H.
  - now intros ->.
Qed.

Lemma resolve_id_dict (d : list (string * json)) :
  resolve_id (JDict d) =
  Ok (if truthy (field d "id_str") then field d "id_str"
      else JStr (py_str (match lookup "id" d with
                         | Some v => v
                         | None => JStr ""
                         end))).
Proof.
  unfold resolve_id. rewrite get_dict. cbn [bind].
  destruct (truthy (field d "id_str")); reflexivity.
Qed.

Section WorkerFacts.

Variable json_loads : string -> option json.
Variable db : Type.
Variable execute : db -> list dbrow -> exc (db * Z).
Variable commit : db -> exc db.
Variable fs : string -> option (list string).
Variable BATCH_SIZE : Z.

Local Abbreviation line_step := (process_line json_loads execute commit BATCH_SIZE).
Local Abbreviation lines_step := (process_lines json_loads execute commit BATCH_SIZE).
Local Abbreviation paths_step := (process_paths json_loads execute commit fs BATCH_SIZE).
Local Abbreviation run := (process_files json_loads execute commit fs BATCH_SIZE).

Lemma line_blank (w : worker db) (line : string) :
  strip line = "" -> line_step w line = Ok w.
Proof. unfold process_line. now intros ->. Qed.

Lemma line_undecodable (w : worker db) (line : string) :
  strip line <> "" -> json_loads (strip line) = None ->
  line_step w line = Ok (count_skipped (count_read w)).
Proof.
  unfold process_line. intros Hne ->.
  destruct (String.eqb_spec (strip line) ""); [contradiction | reflexivity].
Qed.

Lemma line_record (w : worker db) (line : string) (obj : json) :
  holds json_loads line obj ->
  line_step w line =
  (t <- parse_ts obj ;;
   match t with
   | None => Ok (count_skipped (count_read w))
   | Some t =>
       i <- resolve_id obj ;;
       if negb (truthy i) then Ok (count_skipped (count_read w))
       else
         r <- extract_row obj ;;
         let w' := append (count_read w) {| ts := t; id_str := i; cols := r |} in
         if BATCH_SIZE <=? Z.of_nat (List.length (batch w'))
         then flush execute commit w' else Ok w'
   end).
Proof.
  unfold process_line. intros [Hne ->].
  destruct (String.eqb_spec (strip line) ""); [contradiction | reflexivity].
Qed.

Lemma lines_app (w : worker db) (l1 l2 : list string) :
  lines_step w (l1 ++ l2) = (w' <- lines_step w l1 ;; lines_step w' l2).
Proof.
  revert w. induction l1 as [| l l1 IH]; intros w; cbn.
  - reflexivity.
  - destruct (process_line _ _ _ _ w l); cbn; [apply IH | reflexivity].
Qed.

Lemma paths_app (w : worker db) (p1 p2 : list string) :
  paths_step w (p1 ++ p2) = (w' <- paths_step w p1 ;; paths_step w' p2).
Proof.
  revert w. induction p1 as [| p p1 IH]; intros w; cbn.
  - reflexivity.
  - destruct (fs p) as [lines |]; [| apply IH].
    destruct (process_lines _ _ _ _ w lines); cbn; [apply IH | reflexivity].
Qed.

(** An exception on a line ends the worker: no later line or file is read
    and no triple is returned. *)
Lemma raise_on_line_ends_run (st : db) (paths1 paths2 : list string)
  (path : string) (lines1 lines2 : list string) (line : string)
  (w0 w : worker db) (e : exn) :
  paths_step (connect st) paths1 = Ok w0 ->
  fs path = Some (lines1 ++ line :: lines2) ->
  lines_step w0 lines1 = Ok w ->
  line_step w line = Raise e ->
  run (paths1 ++ path :: paths2) st = Raise e.
Proof.
  intros H0 Hfs H1 Hl. unfold process_files.
  rewrite paths_app, H0. cbn [bind process_paths]. rewrite Hfs.
  rewrite lines_app, H1. cbn [bind process_lines]. rewrite Hl.
  reflexivity.
Qed.

End WorkerFacts.

Arguments line_record json_loads {db} execute commit BATCH_SIZE w {line obj} _.
Arguments raise_on_line_ends_run json_loads {db} execute commit fs BATCH_SIZE
  st paths1 paths2 path lines1 lines2 line w0 w e _ _ _ _.

(** ** Malformed timestamps *)

Lemma malformed_timestamp_raises (d : list (string * json)) (e : exn) :
  malformed_timestamp d e -> parse_ts (JDict d) = Raise e.
Proof.
  intros [(ms & Hms & Hnn & Hint) | (Hms & -> & s & Hc & Hne & Hs)].
  - now rewrite (parse_ts_ms _ _ Hms Hnn), Hint.
  - rewrite (parse_ts_created _ Hms), (field_some _ _ _ Hc).
    rewrite (truthy_str _ Hne). cbn. now rewrite Hs.
Qed.




(** ** Identifiers *)

(** C7.  The identifier is [id_str] when that is a non-empty string; when
    [id_str] is absent or empty it is [str] of [id], for a number its
    decimal text; a record whose identifier comes out empty is counted as
    skipped and nothing of it reaches the batch or the store.  The line
    [{"id": 7}], which has no timestamp, is skipped: one line read, one
    skipped, nothing inserted, whatever the store and the batch size. *)
Theorem identifier_resolution
  (json_loads : string -> option json) (db : Type)
  (execute : db -> list dbrow -> exc (db * Z)) (commit : db -> exc db)
  (BATCH_SIZE : Z) :
  (forall d s,
      lookup "id_str" d = Some (JStr s) -> s <> "" ->
      resolve_id (JDict d) = Ok (JStr s))
  /\ (forall d,
         lookup "id_str" d = None \/ lookup "id_str" d = Some (JStr "") ->
         resolve_id (JDict d)
         = Ok (JStr (py_str (match lookup "id" d with
                             | Some v => v
                             | None => JStr ""
                             end))))
  /\ (forall d n,
         lookup "id_str" d = None \/ lookup "id_str" d = Some (JStr "") ->
         lookup "id" d = Some (JInt n) ->
         resolve_id (JDict d) = Ok (JStr (str_of_Z n)))
  /\ (forall d t w line,
         holds json_loads line (JDict d) ->
         parse_ts (JDict d) = Ok t ->
         resolve_id (JDict d) = Ok (JStr "") ->
         process_line json_loads execute commit BATCH_SIZE w line
         = Ok (count_skipped (count_read w)))
  /\ (forall w : worker db,
         batch (count_skipped (count_read w)) = batch w
         /\ cur (count_skipped (count_read w)) = cur w
         /\ flushed (count_skipped (count_read w)) = flushed w
         /\ inserted (count_skipped (count_read w)) = inserted w
         /\ skipped (count_skipped (count_read w)) = skipped w + 1
         /\ read_count (count_skipped (count_read w)) = read_count w + 1)
  /\ (forall st,
         process_files Loads.loads execute commit
           (one_file [js "{'id': 7}"]) BATCH_SIZE ["raw1.json"] st
         = Ok (count_skipped (count_read (connect st)))
         /\ counts (count_skipped (count_read (connect st))) = (0, 1, 1)).
Proof.
  assert (Hfalsy : forall d,
             lookup "id_str" d = None \/ lookup "id_str" d = Some (JStr "") ->
             truthy (field d "id_str") = false).
  { intros d [H | H]; unfold field; rewrite H; reflexivity. }
  repeat split.
  - intros d s Hs Hne. rewrite resolve_id_dict, (field_some _ _ _ Hs).
    now rewrite (truthy_str _ Hne).
  - intros d H. now rewrite resolve_id_dict, (Hfalsy d H).
  - intros d n H Hid. now rewrite resolve_id_dict, (Hfalsy d H), Hid.
  - intros d t w line Hh Ht Hi.
    rewrite (line_record json_loads execute commit BATCH_SIZE w Hh), Ht.
    cbn [bind]. destruct t; [| reflexivity]. now rewrite Hi.
Qed.

Lemma identifier_resolution_witness :
  resolve_id (JDict [("id", JInt 7)]) = Ok (JStr "7").
Proof.
  destruct (identifier_resolution Loads.loads Table.t Table.execute
              Table.commit 10000) as (_ & _ & Hid & _).
  apply (Hid [("id", JInt 7)] 7); [left |]; reflexivity.
Defined.

(** C8.  The line with the string-typed [timestamp_ms] is not skipped: the
    worker flushes one batch of one row, the row enters the table, and the
    row is 2023-11-14T22:13:20Z in UTC, ["42"], ["en"], an empty source and
    null in every other column. *)
Theorem scenario_string_timestamp :
  exists w r,
    reference_run
      [js "{'timestamp_ms': '1700000000000', 'id_str': '42', 'lang': 'en'}"]
    = Ok w
    /\ flushed w = [[r]]
    /\ Table.committed (store (cur w)) = [r]
    /\ counts w = (1, 0, 1)
    /\ utc_fields (ts r)
       = {| year := 2023; month := 11; day := 14;
            hour := 22; minute := 13; second := 20; microsecond := 0 |}
    /\ utcoffset_us (ts r) = 0
    /\ id_str r = JStr "42"
    /\ cols r
       = {| lang := JStr "en"; source := JStr ""; screen_name := JNull;
            place := JNull; quote_count := JNull; favorited := JNull;
            coordinates := None; entities := None;
            friends_count := JNull; user_id := JNull |}.
Proof.
  eexists. eexists. split; [vm_compute; reflexivity |].
  repeat split.
Qed.

(** C9 fails on the code.  A file of 101 distinct records makes one batch of
    101 rows, which [execute_values] sends in two statements, of 100 rows and
    of 1 row; all 101 rows enter the table, and the worker returns 1 for
    [inserted], the [rowcount] of the second statement: [inserted + skipped]
    is 1 and [read] is 101, with no duplicate key. *)
Theorem inserted_counts_last_page :
  exists w,
    reference_run (distinct_lines 101) = Ok w
    /\ counts w = (1, 0, 101)
    /\ map (@List.length dbrow) (flushed w) = [101%nat]
    /\ List.length (Table.committed (store (cur w))) = 101%nat.
Proof.
  eexists. split; [vm_compute; reflexivity |].
  repeat split.
Qed.



(** ** The file partitioner *)

Section Chunking.

Context {A : Type}.

Lemma firstn_add_skipn (a b : nat) (l : list A) :
  firstn (a + b) l = firstn a l ++ firstn b (skipn a l).
Proof.
  revert l. induction a as [| a IH]; intros [| x l]; cbn; try reflexivity.
  - now rewrite firstn_nil.
  - now rewrite IH.
Qed.

Lemma firstn_min_length (k : nat) (l : list A) :
  firstn (Nat.min k (List.length l)) l = firstn k l.
Proof.
  destruct (Nat.le_ge_cases k (List.length l)) as [H | H].
  - now rewrite Nat.min_l.
  - rewrite Nat.min_r, firstn_all by exact H. now rewrite firstn_all2.
Qed.

(** A slice of [c] items from a position inside or past the list. *)
Lemma slice_chunk (l : list A) (i c : Z) :
  0 <= i -> 0 <= c ->
  slice l i (i + c) = firstn (Z.to_nat c) (skipn (Z.to_nat i) l).
Proof.
  intros Hi Hc. unfold slice, clamp_index.
  destruct (Z.ltb_spec i 0); [lia |].
  destruct (Z.ltb_spec (i + c) 0); [lia |].
  destruct (Z.le_gt_cases (Z.of_nat (List.length l)) i) as [Hout | Hin].
  - rewrite (skipn_all2 l (n := Z.to_nat i)) by lia.
    rewrite (skipn_all2 l (n := Z.to_nat (Z.min i _))) by lia.
    now rewrite !firstn_nil.
  - rewrite (Z.min_l i) by lia.
    rewrite <- (firstn_min_length (Z.to_nat c)).
    f_equal. rewrite length_skipn. lia.
Qed.

(** The chunks of [c] items, [m] of them, put end to end. *)
Lemma chunks_concat (l : list A) (c m : nat) :
  List.concat (map (fun k => firstn c (skipn (k * c) l)) (seq 0 m))
  = firstn (m * c) l.
Proof.
  induction m as [| m IH]; [reflexivity |].
  rewrite seq_S, map_app, concat_app, IH. cbn [map List.concat Nat.add].
  rewrite app_nil_r, <- firstn_add_skipn. f_equal. lia.
Qed.

Lemma chunk_length (l : list A) (c k : nat) :
  List.length (firstn c (skipn (k * c) l))
  = Nat.min c (List.length l - k * c).
Proof. now rewrite length_firstn, length_skipn. Qed.

End Chunking.

Lemma n_workers_positive (configured cpu_count : Z) :
  0 <= configured -> 1 <= n_workers configured cpu_count.
Proof.
  unfold n_workers. intros H. destruct (Z.eqb_spec configured 0); lia.
Qed.

(** The chunks [main] makes of a list of files, when there is one. *)
Lemma main_chunks (CHUNK_SIZE : Z) (files : list string) :
  1 <= CHUNK_SIZE -> files <> [] ->
  let c := Z.to_nat (Z.min CHUNK_SIZE (Z.of_nat (List.length files))) in
  let m := Z.to_nat ((Z.of_nat (List.length files) + Z.of_nat c - 1)
                     / Z.of_nat c) in
  (1 <= c)%nat /\ (1 <= m)%nat
  /\ ((m - 1) * c < List.length files <= m * c)%nat
  /\ (starts <- range0 (Z.of_nat (List.length files))
                  (Z.min CHUNK_SIZE (Z.of_nat (List.length files))) ;;
      Ok (map (fun i => slice files i
                          (i + Z.min CHUNK_SIZE (Z.of_nat (List.length files))))
              starts))
     = Ok (map (fun k => firstn c (skipn (k * c) files)) (seq 0 m)).
Proof.
  intros Hcs Hne c m.
  assert (HL : (1 <= List.length files)%nat).
  { destruct files; [contradiction | cbn; lia]. }
  assert (Hc : (1 <= c)%nat) by (subst c; lia).
  assert (Hcz : Z.of_nat c = Z.min CHUNK_SIZE (Z.of_nat (List.length files)))
    by (subst c; lia).
  pose proof (Z.div_mod (Z.of_nat (List.length files) + Z.of_nat c - 1)
                (Z.of_nat c) ltac:(lia)) as Hdm.
  pose proof (Z.mod_pos_bound (Z.of_nat (List.length files) + Z.of_nat c - 1)
                (Z.of_nat c) ltac:(lia)) as Hmod.
  assert (Hq : 1 <= (Z.of_nat (List.length files) + Z.of_nat c - 1)
                    / Z.of_nat c).
  { apply Z.div_le_lower_bound; lia. }
  assert (Hm : Z.of_nat m
               = (Z.of_nat (List.length files) + Z.of_nat c - 1) / Z.of_nat c)
    by (subst m; lia).
  split; [exact Hc |]. split; [lia |]. split; [nia |].
  rewrite <- Hcz. unfold range0.
  destruct (Z.eqb_spec (Z.of_nat c) 0); [lia |].
  destruct (Z.ltb_spec (Z.of_nat c) 0); [lia |].
  cbn [bind]. f_equal. rewrite map_map. fold m.
  apply map_ext. intros k.
  rewrite slice_chunk by lia. rewrite Nat2Z.id. f_equal. f_equal. lia.
Qed.

(** C4.  With a chunk size and a worker count of at least one and at least
    one file, [main] makes chunks that put end to end give the sorted, capped
    list of files: every chunk but the last has the configured size, the last
    has at least one file and at most that size; the pool has the configured
    number of workers or the number of chunks, whichever is smaller.  For 45
    files and a chunk size of 20 the sizes are 20, 20 and 5, and three or
    more configured workers make a pool of 3. *)
Theorem partition_into_chunks
  (CHUNK_SIZE N_WORKERS MAX_FILES : Z) (globbed : list string) :
  1 <= CHUNK_SIZE -> 1 <= N_WORKERS -> discover MAX_FILES globbed <> [] ->
  exists p,
    main_plan CHUNK_SIZE N_WORKERS MAX_FILES globbed = Ok (Some p)
    /\ List.concat (chunks p) = discover MAX_FILES globbed
    /\ (exists body last,
           chunks p = body ++ [last]
           /\ Forall (fun ch => Z.of_nat (List.length ch) = CHUNK_SIZE) body
           /\ 1 <= Z.of_nat (List.length last) <= CHUNK_SIZE)
    /\ pool_size p = Z.min N_WORKERS (Z.of_nat (List.length (chunks p)))
    /\ (List.length (discover MAX_FILES globbed) = 45%nat ->
        CHUNK_SIZE = 20 ->
        map (@List.length string) (chunks p) = [20; 20; 5]%nat
        /\ (3 <= N_WORKERS -> pool_size p = 3)).
Proof.
  intros Hcs Hnw Hne. unfold main_plan.
  set (files := discover MAX_FILES globbed) in *.
  destruct (main_chunks CHUNK_SIZE files Hcs Hne) as (Hc & Hm & Hlen & Hch).
  set (c := Z.to_nat (Z.min CHUNK_SIZE (Z.of_nat (List.length files)))) in *.
  set (m := Z.to_nat ((Z.of_nat (List.length files) + Z.of_nat c - 1)
                      / Z.of_nat c)) in *.
  set (cs := map (fun k => firstn c (skipn (k * c) files)) (seq 0 m)) in *.
  assert (Hplan : main_plan CHUNK_SIZE N_WORKERS MAX_FILES globbed
                  = Ok (Some {| chunks := cs;
                                pool_size := Z.min N_WORKERS (Z.of_nat m) |})).
  { unfold main_plan. fold files. destruct files as [| f files'] eqn:E;
      [contradiction |]. rewrite <- E in *.
    destruct (range0 _ _) as [starts | e]; [| discriminate Hch].
    cbn [bind] in *. injection Hch as Hch. rewrite Hch.
    assert (Hcount : List.length cs = m)
      by (subst cs; now rewrite length_map, length_seq).
    rewrite Hcount.
    destruct (Z.ltb_spec (Z.min N_WORKERS (Z.of_nat m)) 1); [lia | reflexivity]. }
  eexists. split; [exact Hplan |]. cbn [chunks pool_size].
  assert (Hcount : List.length cs = m)
    by (subst cs; now rewrite length_map, length_seq).
  assert (Hsizes : map (@List.length string) cs
                   = map (fun k => Nat.min c (List.length files - k * c))
                         (seq 0 m)).
  { subst cs. rewrite map_map. apply map_ext. intros k. apply chunk_length. }
  split; [| split; [| split]].
  - subst cs. rewrite chunks_concat. apply firstn_all2. lia.
  - exists (map (fun k => firstn c (skipn (k * c) files)) (seq 0 (m - 1))),
           (firstn c (skipn ((m - 1) * c) files)).
    split; [| split].
    + subst cs. replace m with (S (m - 1)) at 1 by lia.
      now rewrite seq_S, map_app.
    + apply Forall_forall. intros ch Hin.
      apply in_map_iff in Hin as (k & <- & Hk). apply in_seq in Hk.
      rewrite chunk_length.
      assert ((k + 1) * c <= (m - 1) * c)%nat by (apply Nat.mul_le_mono_r; lia).
      lia.
    + rewrite chunk_length. lia.
  - now rewrite Hcount.
  - intros H45 H20.
    assert (Hc20 : c = 20%nat) by (subst c; rewrite H45, H20; reflexivity).
    assert (Hm3 : m = 3%nat) by (subst m; rewrite Hc20, H45; reflexivity).
    rewrite Hsizes, Hm3, Hc20, H45.
    split; [reflexivity |]. intros H3. lia.
Qed.

Lemma partition_into_chunks_witness :
  exists p,
    main_plan 20 8 0 forty_five_files = Ok (Some p)
    /\ List.concat (chunks p) = discover 0 forty_five_files
    /\ map (@List.length string) (chunks p) = [20; 20; 5]%nat
    /\ pool_size p = 3.
Proof.
  destruct (partition_into_chunks 20 8 0 forty_five_files)
    as (p & Hplan & Hconcat & _ & _ & H45).
  - lia.
  - lia.
  - vm_compute. discriminate.
  - exists p. destruct (H45 eq_refl eq_refl) as [Hsizes Hpool].
    repeat split; try assumption. apply Hpool. lia.
Defined.

(** ** The counters of the worker *)

Lemma paginate_from_concat {A : Type} (page_size : nat) (seq page : list A)
  (room : nat) :
  List.concat (paginate_from page_size seq page room) = rev page ++ seq.
Proof.
  revert page room. induction seq as [| x seq IH]; intros page room.
  - cbn. destruct page; cbn; [reflexivity | now rewrite !app_nil_r].
  - cbn [paginate_from].
    destruct room as [| [| room]]; cbn [List.concat]; rewrite IH; cbn;
      now rewrite <- ?app_assoc.
Qed.

Lemma paginate_concat {A : Type} (seq : list A) (page_size : nat) :
  List.concat (paginate seq page_size) = seq.
Proof. unfold paginate. now rewrite paginate_from_concat. Qed.

Lemma in_concat_length {A : Type} (p : list A) (l : list (list A)) :
  In p l -> (List.length p <= List.length (List.concat l))%nat.
Proof.
  induction l as [| q l IH]; [contradiction |].
  cbn. rewrite length_app. intros [-> | H]; [lia |]. specialize (IH H). lia.
Qed.

Section WorkerCounts.

Variable json_loads : string -> option json.
Variable db : Type.
Variable execute : db -> list dbrow -> exc (db * Z).
Variable commit : db -> exc db.
Variable fs : string -> option (list string).
Variable BATCH_SIZE : Z.

(** A statement inserts no more rows than it lists. *)
Hypothesis execute_rowcount :
  forall st rows st' n,
    execute st rows = Ok (st', n) -> 0 <= n <= Z.of_nat (List.length rows).

Lemma execute_pages_rowcount (bound : Z) (pages : list (list dbrow))
  (c c' : cursor db) :
  execute_pages execute c pages = Ok c' ->
  (forall p, In p pages -> Z.of_nat (List.length p) <= bound) ->
  pages <> [] \/ 0 <= rowcount c <= bound ->
  0 <= rowcount c' <= bound.
Proof.
  revert c. induction pages as [| p pages IH]; intros c Hrun Hlen Hstart.
  - injection Hrun as <-. destruct Hstart as [H | H]; [contradiction | exact H].
  - cbn [execute_pages] in Hrun.
    destruct (execute (store c) p) as [[st n] |] eqn:E; [| discriminate Hrun].
    cbn [bind] in Hrun. apply (IH _ Hrun).
    + intros q Hq. apply Hlen. now right.
    + right. cbn. apply execute_rowcount in E.
      specialize (Hlen p (or_introl eq_refl)). lia.
Qed.

Lemma flush_counts (w w' : worker db) :
  flush execute commit w = Ok w' -> batch w <> [] ->
  batch w' = []
  /\ flushed w' = flushed w ++ [batch w]
  /\ inserted w <= inserted w'
     <= inserted w + Z.of_nat (List.length (batch w))
  /\ skipped w' = skipped w
  /\ read_count w' = read_count w.
Proof.
  unfold flush, execute_values. intros H Hne.
  destruct (execute_pages _ _ _) as [c |] eqn:E; [| discriminate H].
  cbn [bind] in H.
  destruct (commit (store c)) as [st |]; [| discriminate H].
  injection H as <-. cbn.
  assert (0 <= rowcount c <= Z.of_nat (List.length (batch w))).
  { apply (execute_pages_rowcount _ _ _ _ E).
    - intros p Hp. apply in_concat_length in Hp.
      rewrite paginate_concat in Hp. lia.
    - left. intros Hnil.
      pose proof (paginate_concat (batch w) 100) as Hc.
      rewrite Hnil in Hc. cbn in Hc. now symmetry in Hc. }
  repeat split; lia.
Qed.

Lemma consistent_connect (st : db) : consistent BATCH_SIZE (connect st).
Proof. split; cbn; try lia. constructor. Qed.

Lemma consistent_skip (w : worker db) :
  consistent BATCH_SIZE w ->
  consistent BATCH_SIZE (count_skipped (count_read w)).
Proof.
  intros [H1 H2 H3 H4]. split; unfold appended in *; cbn in *; try assumption.
  lia.
Qed.

Lemma consistent_flush (w w' : worker db) :
  consistent BATCH_SIZE w ->
  flush execute commit w = Ok w' -> batch w <> [] ->
  (1 <= BATCH_SIZE -> Z.of_nat (List.length (batch w)) <= BATCH_SIZE) ->
  consistent BATCH_SIZE w'.
Proof.
  intros [H1 H2 H3 H4] Hf Hne Hsize.
  destruct (flush_counts _ _ Hf Hne) as (Hb & Hfl & Hins & Hsk & Hrd).
  split; unfold appended in *; rewrite ?Hb, ?Hfl, ?Hsk, ?Hrd.
  - rewrite H1, concat_app, length_app. cbn. rewrite app_nil_r. lia.
  - rewrite concat_app, length_app. cbn. rewrite app_nil_r. lia.
  - apply Forall_app. split; [exact H3 |]. constructor; [| constructor].
    split; assumption.
  - cbn. lia.
Qed.

Lemma line_consistent (w w' : worker db) (line : string) :
  consistent BATCH_SIZE w ->
  process_line json_loads execute commit BATCH_SIZE w line = Ok w' ->
  consistent BATCH_SIZE w'
  /\ read_count w' = read_count w + (if blank line then 0 else 1).
Proof.
  intros Hw. unfold process_line, blank.
  destruct (strip line =? "")%string.
  { intros [= <-]. split; [exact Hw | lia]. }
  cbn [negb].
  destruct (json_loads (strip line)) as [obj |].
  2: { intros [= <-]. split; [now apply consistent_skip | reflexivity]. }
  destruct (parse_ts obj) as [[t |] | e]; cbn [bind].
  3: discriminate.
  2: { intros [= <-]. split; [now apply consistent_skip | reflexivity]. }
  destruct (resolve_id obj) as [i | e]; cbn [bind]; [| discriminate].
  destruct (truthy i); cbn [negb].
  2: { intros [= <-]. split; [now apply consistent_skip | reflexivity]. }
  destruct (extract_row obj) as [r | e]; cbn [bind]; [| discriminate].
  cbn zeta.
  set (w1 := append (count_read w) {| ts := t; id_str := i; cols := r |}).
  assert (Hlen : List.length (batch w1) = S (List.length (batch w)))
    by (cbn; rewrite length_app; cbn; lia).
  assert (Hw1 : read_count w1 = skipped w1 + appended w1
                /\ 0 <= inserted w1
                   <= Z.of_nat (List.length (List.concat (flushed w1)))).
  { destruct Hw as [H1 H2 _ _]. unfold appended in *. rewrite Hlen.
    cbn in *. lia. }
  destruct (Z.leb_spec BATCH_SIZE (Z.of_nat (List.length (batch w1))))
    as [Hfull | Hroom].
  - intros Hf.
    assert (Hne : batch w1 <> []) by (intros E; rewrite E in Hlen; discriminate).
    destruct (flush_counts _ _ Hf Hne) as (Hb & Hfl & Hins & Hsk & Hrd).
    split; [| rewrite Hrd; reflexivity].
    destruct Hw as [H1 H2 H3 H4]. destruct Hw1 as [Ha Hb1].
    split; unfold appended in *; rewrite ?Hb, ?Hfl, ?Hsk, ?Hrd.
    + rewrite Ha, concat_app, length_app. cbn [List.concat List.length].
      rewrite app_nil_r. lia.
    + rewrite concat_app, length_app. cbn [List.concat List.length].
      rewrite app_nil_r. lia.
    + apply Forall_app. split; [exact H3 |]. constructor; [| constructor].
      split; [exact Hne |]. intros Hpos. specialize (H4 Hpos). lia.
    + cbn. lia.
  - intros [= <-]. split; [| reflexivity].
    destruct Hw as [H1 H2 H3 H4]. destruct Hw1 as [Ha Hb1].
    split; try assumption. intros _. lia.
Qed.

Lemma lines_consistent (lines : list string) (w w' : worker db) :
  consistent BATCH_SIZE w ->
  process_lines json_loads execute commit BATCH_SIZE w lines = Ok w' ->
  consistent BATCH_SIZE w' /\ read_count w' = read_count w + nonblank lines.
Proof.
  revert w. induction lines as [| l lines IH]; intros w Hw.
  - intros [= <-]. split; [exact Hw |]. unfold nonblank. cbn. lia.
  - cbn [process_lines].
    destruct (process_line _ _ _ _ w l) as [w1 |] eqn:E; [| discriminate].
    cbn [bind]. intros Hrest.
    destruct (line_consistent _ _ _ Hw E) as [Hw1 Hr1].
    destruct (IH _ Hw1 Hrest) as [Hw' Hr']. split; [exact Hw' |].
    rewrite Hr', Hr1. unfold nonblank. cbn [filter].
    destruct (blank l); cbn [negb List.length]; lia.
Qed.

Lemma paths_consistent (file_paths : list string) (w w' : worker db) :
  consistent BATCH_SIZE w ->
  process_paths json_loads execute commit fs BATCH_SIZE w file_paths = Ok w' ->
  consistent BATCH_SIZE w' /\ read_count w' = read_count w + nonblank (lines_of fs file_paths).
Proof.
  revert w. induction file_paths as [| p ps IH]; intros w Hw.
  - intros [= <-]. split; [exact Hw |]. unfold nonblank. cbn. lia.
  - cbn [process_paths lines_of flat_map]. fold (lines_of fs ps).
    destruct (fs p) as [lines |].
    + destruct (process_lines _ _ _ _ w lines) as [w1 |] eqn:E; [| discriminate].
      cbn [bind]. intros Hrest.
      destruct (lines_consistent _ _ _ Hw E) as [Hw1 Hr1].
      destruct (IH _ Hw1 Hrest) as [Hw' Hr']. split; [exact Hw' |].
      rewrite Hr', Hr1. unfold nonblank.
      rewrite filter_app, length_app. lia.
    + intros Hrest. apply (IH _ Hw Hrest).
Qed.

(** What holds of the triple a worker returns, for a store whose statements
    insert no more rows than they list: [read] counts the non-blank lines of
    the files of the chunk, every one of them was skipped or appended to
    exactly one flushed batch, a batch holds at least one row and at most
    [BATCH_SIZE] of them, and [inserted + skipped <= read]. *)
Lemma worker_counts (file_paths : list string) (st : db) (w : worker db) :
  process_files json_loads execute commit fs BATCH_SIZE file_paths st = Ok w ->
  batch w = []
  /\ read_count w = nonblank (lines_of fs file_paths)
  /\ read_count w
     = skipped w + Z.of_nat (List.length (List.concat (flushed w)))
  /\ Forall (fun b => b <> []
                      /\ (1 <= BATCH_SIZE ->
                          Z.of_nat (List.length b) <= BATCH_SIZE))
            (flushed w)
  /\ 0 <= inserted w
  /\ inserted w + skipped w <= read_count w.
Proof.
  unfold process_files.
  destruct (process_paths _ _ _ _ _ (connect st) file_paths) as [w1 |] eqn:E;
    [| discriminate].
  cbn [bind].
  destruct (paths_consistent _ _ _ (consistent_connect st) E) as [Hw1 Hr1].
  cbn in Hr1.
  assert (Hfinal : forall w2 : worker db, consistent BATCH_SIZE w2 -> batch w2 = [] ->
             read_count w2 = read_count w1 ->
             batch w2 = []
             /\ read_count w2 = nonblank (lines_of fs file_paths)
             /\ read_count w2
                = skipped w2 + Z.of_nat (List.length (List.concat (flushed w2)))
             /\ Forall (fun b => b <> []
                                 /\ (1 <= BATCH_SIZE ->
                                     Z.of_nat (List.length b) <= BATCH_SIZE))
                       (flushed w2)
             /\ 0 <= inserted w2
             /\ inserted w2 + skipped w2 <= read_count w2).
  { intros w2 [H1 H2 H3 H4] Hb Hr. unfold appended in H1. rewrite Hb in H1.
    cbn in H1. rewrite Nat.add_0_r in H1.
    repeat split; try assumption; lia. }
  destruct (batch w1) as [| r b] eqn:Eb.
  - intros [= <-]. now apply Hfinal.
  - intros Hf.
    assert (Hne : batch w1 <> []) by (rewrite Eb; discriminate).
    destruct (flush_counts _ _ Hf Hne) as (Hb & _ & _ & _ & Hrd).
    apply Hfinal; [| exact Hb | exact Hrd].
    apply (consistent_flush _ _ Hw1 Hf Hne).
    intros Hpos. pose proof (batch_open _ _ Hw1 Hpos). lia.
Qed.

End WorkerCounts.

(** The reference store inserts no more rows than a statement lists. *)
Lemma table_accepted_length (tbl rows : list dbrow) :
  (List.length (Table.accepted tbl rows) <= List.length rows)%nat.
Proof.
  revert tbl. induction rows as [| r rows IH]; intros tbl; cbn; [lia |].
  destruct (existsb _ tbl); cbn.
  - specialize (IH tbl). lia.
  - specialize (IH (tbl ++ [r])). lia.
Qed.

Lemma table_execute_rowcount (st : Table.t) (rows : list dbrow)
  (st' : Table.t) (n : Z) :
  Table.execute st rows = Ok (st', n) ->
  0 <= n <= Z.of_nat (List.length rows).
Proof.
  unfold Table.execute. intros [= _ <-].
  pose proof (table_accepted_length (Table.committed st ++ Table.pending st) rows).
  lia.
Qed.

(** The triple of a worker on the reference parser and store. *)
Corollary reference_run_counts (lines : list string) (w : worker Table.t) :
  reference_run lines = Ok w ->
  read_count w = nonblank lines
  /\ read_count w
     = skipped w + Z.of_nat (List.length (List.concat (flushed w)))
  /\ Forall (fun b => 1 <= Z.of_nat (List.length b) <= 10000) (flushed w)
  /\ inserted w + skipped w <= read_count w.
Proof.
  intros H.
  destruct (worker_counts Loads.loads Table.t Table.execute Table.commit
              (one_file lines) 10000 table_execute_rowcount _ _ _ H)
    as (_ & Hread & Happ & Hb & _ & Hle).
  cbn in Hread. rewrite app_nil_r in Hread.
  repeat split; try assumption.
  eapply Forall_impl; [| exact Hb]. cbn. intros b [Hne Hsize].
  split; [| apply Hsize; lia].
  destruct b; [contradiction | cbn; lia].
Qed.

(** * Further properties of the worker *)

Section WorkerRefinement.

Variable json_loads : string -> option json.
Variable db : Type.
Variable execute : db -> list dbrow -> exc (db * Z).
Variable commit : db -> exc db.
Variable fs : string -> option (list string).
Variable BATCH_SIZE : Z.

Local Abbreviation line_step := (process_line json_loads execute commit BATCH_SIZE).
Local Abbreviation lines_step := (process_lines json_loads execute commit BATCH_SIZE).
Local Abbreviation paths_step := (process_paths json_loads execute commit fs BATCH_SIZE).
Local Abbreviation run := (process_files json_loads execute commit fs BATCH_SIZE).

(** The step of the worker on a line, by the fate of the line. *)
Lemma line_fate (w : worker db) (line : string) :
  line_step w line =
  match fate_of json_loads line with
  | Blank => Ok w
  | Skip => Ok (count_skipped (count_read w))
  | Fail e => Raise e
  | Keep r =>
      let w' := append (count_read w) r in
      if BATCH_SIZE <=? Z.of_nat (List.length (batch w'))
      then flush execute commit w' else Ok w'
  end.
Proof.
  unfold process_line, fate_of, blank.
  destruct (strip line =? "")%string; [reflexivity |].
  destruct (json_loads (strip line)) as [obj |]; [| reflexivity].
  destruct (parse_ts obj) as [[t |] | e]; cbn [bind]; try reflexivity.
  destruct (resolve_id obj) as [i | e]; cbn [bind]; [| reflexivity].
  destruct (truthy i); cbn [negb]; [| reflexivity].
  destruct (extract_row obj); reflexivity.
Qed.

Lemma flush_shape (w w' : worker db) :
  flush execute commit w = Ok w' ->
  batch w' = [] /\ flushed w' = flushed w ++ [batch w]
  /\ skipped w' = skipped w /\ read_count w' = read_count w.
Proof.
  unfold flush. intros H.
  destruct (execute_values _ _ _) as [c |]; [| discriminate H].
  cbn [bind] in H.
  destruct (commit (store c)) as [st |]; [| discriminate H].
  injection H as <-. repeat split.
Qed.

(** The files of a chunk are read as one sequence of lines. *)
Lemma paths_as_lines (w : worker db) (file_paths : list string) :
  paths_step w file_paths = lines_step w (lines_of fs file_paths).
Proof.
  revert w. induction file_paths as [| p ps IH]; intros w; [reflexivity |].
  cbn [process_paths lines_of flat_map]. fold (lines_of fs ps).
  destruct (fs p) as [lines |]; [| apply IH].
  rewrite lines_app.
  destruct (process_lines _ _ _ _ w lines); cbn [bind]; [apply IH | reflexivity].
Qed.

(** A blank line leaves the worker as it is. *)
Lemma lines_without_blanks (w : worker db) (lines : list string) :
  lines_step w lines
  = lines_step w (filter (fun l => negb (blank l)) lines).
Proof.
  revert w. induction lines as [| l lines IH]; intros w; [reflexivity |].
  cbn [filter process_lines].
  destruct (blank l) eqn:E; cbn [negb process_lines].
  - rewrite line_fate. unfold fate_of. rewrite E. cbn [bind]. apply IH.
  - destruct (process_line _ _ _ _ w l); cbn [bind]; [apply IH | reflexivity].
Qed.

Lemma rows_of_cons (l : string) (lines : list string) :
  rows_of json_loads (l :: lines)
  = rows_of json_loads [l] ++ rows_of json_loads lines.
Proof. unfold rows_of. cbn. now rewrite app_nil_r. Qed.

Lemma fate_blank (line : string) :
  fate_of json_loads line = Blank <-> blank line = true.
Proof.
  unfold fate_of. destruct (blank line); split; try congruence.
  destruct (json_loads (strip line)) as [obj |]; try discriminate.
  destruct (parse_ts obj) as [[t |] | e]; try discriminate.
  destruct (resolve_id obj) as [i | e]; try discriminate.
  destruct (truthy i); try discriminate.
  destruct (extract_row obj); discriminate.
Qed.

(** What a line that does not raise does to the counters and the rows. *)
Lemma line_shape (w w' : worker db) (line : string) :
  line_step w line = Ok w' ->
  List.concat (flushed w') ++ batch w'
  = (List.concat (flushed w) ++ batch w) ++ rows_of json_loads [line]
  /\ read_count w' = read_count w + nonblank [line]
  /\ skipped w' = skipped w + skipped_of json_loads [line]
  /\ nonblank [line]
     = skipped_of json_loads [line]
       + Z.of_nat (List.length (rows_of json_loads [line])).
Proof.
  rewrite line_fate. unfold rows_of, skipped_of, nonblank. cbn [flat_map filter].
  pose proof (fate_blank line) as Hb.
  destruct (fate_of json_loads line) as [| | r | e] eqn:E.
  - intros [= <-]. rewrite (proj1 Hb eq_refl). cbn.
    rewrite !app_nil_r. repeat split; lia.
  - intros [= <-].
    destruct (blank line); [now discriminate (proj2 Hb eq_refl) |].
    cbn. rewrite !app_nil_r. repeat split; lia.
  - destruct (blank line); [now discriminate (proj2 Hb eq_refl) |].
    cbn zeta. cbn [negb List.length app].
    destruct (_ <=? _).
    + intros Hf. apply flush_shape in Hf as (Hb' & Hfl & Hsk & Hrd).
      rewrite Hb', Hfl, Hsk, Hrd, concat_app. cbn.
      repeat rewrite app_nil_r. rewrite <- app_assoc. repeat split; lia.
    + intros [= <-]. cbn. rewrite ?app_nil_r, <- ?app_assoc.
      repeat split; lia.
  - discriminate.
Qed.

Lemma nonblank_cons (l : string) (lines : list string) :
  nonblank (l :: lines) = nonblank [l] + nonblank lines.
Proof.
  unfold nonblank. cbn [filter]. destruct (negb (blank l)); cbn [List.length]; lia.
Qed.

Lemma skipped_of_cons (l : string) (lines : list string) :
  skipped_of json_loads (l :: lines)
  = skipped_of json_loads [l] + skipped_of json_loads lines.
Proof.
  unfold skipped_of. cbn [filter].
  destruct (fate_of json_loads l); cbn [List.length]; lia.
Qed.

Lemma lines_shape (lines : list string) (w w' : worker db) :
  lines_step w lines = Ok w' ->
  List.concat (flushed w') ++ batch w'
  = (List.concat (flushed w) ++ batch w) ++ rows_of json_loads lines
  /\ read_count w' = read_count w + nonblank lines
  /\ skipped w' = skipped w + skipped_of json_loads lines
  /\ nonblank lines
     = skipped_of json_loads lines
       + Z.of_nat (List.length (rows_of json_loads lines)).
Proof.
  revert w. induction lines as [| l lines IH]; intros w.
  - intros [= <-]. unfold rows_of, nonblank, skipped_of. cbn.
    rewrite app_nil_r. repeat split; lia.
  - cbn [process_lines].
    destruct (process_line _ _ _ _ w l) as [w1 |] eqn:E; [| discriminate].
    cbn [bind]. intros Hrest.
    destruct (line_shape _ _ _ E) as (H1 & H2 & H3 & H4).
    destruct (IH _ Hrest) as (H1' & H2' & H3' & H4').
    rewrite (rows_of_cons l lines), (nonblank_cons l lines),
      (skipped_of_cons l lines), length_app.
    rewrite H1', H1, H2', H2, H3', H3, <- !app_assoc.
    repeat split; lia.
Qed.

(** The worker ends with an empty batch, and the last flush adds no row and
    changes no counter but [inserted]. *)
Lemma run_shape (file_paths : list string) (st : db) (w : worker db) :
  run file_paths st = Ok w ->
  exists w1,
    lines_step (connect st) (lines_of fs file_paths) = Ok w1
    /\ batch w = []
    /\ List.concat (flushed w) = List.concat (flushed w1) ++ batch w1
    /\ skipped w = skipped w1 /\ read_count w = read_count w1.
Proof.
  unfold process_files. rewrite paths_as_lines.
  destruct (process_lines _ _ _ _ (connect st) _) as [w1 |]; [| discriminate].
  cbn [bind]. intros H. exists w1. split; [reflexivity |].
  destruct (batch w1) as [| r b] eqn:Eb.
  - injection H as <-. rewrite Eb, app_nil_r. repeat split.
  - apply flush_shape in H as (Hb & Hfl & Hsk & Hrd).
    rewrite Hb, Hfl, Hsk, Hrd, concat_app, Eb. cbn. rewrite app_nil_r.
    repeat split.
Qed.

Lemma run_kept_rows (file_paths : list string) (st : db) (w : worker db) :
  run file_paths st = Ok w ->
  batch w = []
  /\ List.concat (flushed w) = rows_of json_loads (lines_of fs file_paths).
Proof.
  intros H. apply run_shape in H as (w1 & H1 & Hb & Hc & _).
  apply lines_shape in H1 as (Hrows & _). cbn in Hrows.
  split; [exact Hb |]. now rewrite Hc, Hrows.
Qed.

(** X1.  The batches a returning worker has sent to the store, put end to end,
    are the rows of the kept lines of its files, in the order of the files
    and of their lines: no row is lost, sent twice or moved, whatever the
    store answers and whatever the batch size. *)
Theorem batches_are_the_kept_rows (file_paths : list string) (st : db)
  (w : worker db) :
  run file_paths st = Ok w ->
  batch w = []
  /\ List.concat (flushed w) = rows_of json_loads (lines_of fs file_paths).
Proof. apply run_kept_rows. Qed.

Lemma run_counters (file_paths : list string) (st : db)
  (w : worker db) :
  run file_paths st = Ok w ->
  read_count w = nonblank (lines_of fs file_paths)
  /\ skipped w = skipped_of json_loads (lines_of fs file_paths)
  /\ read_count w
     = skipped w
       + Z.of_nat (List.length (rows_of json_loads (lines_of fs file_paths))).
Proof.
  intros H. apply run_shape in H as (w1 & H1 & Hb & Hc & Hsk & Hrd).
  apply lines_shape in H1 as (Hrows & Hread & Hskip & Hsum).
  cbn in Hread, Hskip. rewrite Hrd, Hsk, Hread, Hskip. repeat split.
  exact Hsum.
Qed.

(** X2.  The counters [read] and [skipped] a worker returns are those of its
    lines alone: [read] is the number of non-blank lines, [skipped] the number
    of lines that do not parse or have no timestamp or no identifier, and
    every line read is skipped or kept. *)
Theorem read_and_skipped_of_the_lines (file_paths : list string) (st : db)
  (w : worker db) :
  run file_paths st = Ok w ->
  read_count w = nonblank (lines_of fs file_paths)
  /\ skipped w = skipped_of json_loads (lines_of fs file_paths)
  /\ read_count w
     = skipped w
       + Z.of_nat (List.length (rows_of json_loads (lines_of fs file_paths))).
Proof. apply run_counters. Qed.

(** ** The sizes of the batches *)

Lemma line_full_batches (w w' : worker db) (line : string) :
  1 <= BATCH_SIZE ->
  line_step w line = Ok w' ->
  Forall (fun b => Z.of_nat (List.length b) = BATCH_SIZE) (flushed w) ->
  Z.of_nat (List.length (batch w)) < BATCH_SIZE ->
  Forall (fun b => Z.of_nat (List.length b) = BATCH_SIZE) (flushed w')
  /\ Z.of_nat (List.length (batch w')) < BATCH_SIZE.
Proof.
  intros Hpos. rewrite line_fate.
  destruct (fate_of json_loads line) as [| | r | e]; try discriminate.
  - intros [= <-]. auto.
  - intros [= <-]. auto.
  - cbn zeta. intros H Hfull Hopen.
    assert (Hlen : List.length (batch (append (count_read w) r))
                   = S (List.length (batch w)))
      by (cbn; rewrite length_app; cbn; lia).
    destruct (Z.leb_spec BATCH_SIZE
                (Z.of_nat (List.length (batch (append (count_read w) r))))).
    + apply flush_shape in H as (Hb & Hfl & _). rewrite Hb, Hfl. split.
      * apply Forall_app. split; [exact Hfull |].
        constructor; [lia | constructor].
      * cbn. lia.
    + injection H as <-. split; [exact Hfull | lia].
Qed.

Lemma lines_full_batches (lines : list string) (w w' : worker db) :
  1 <= BATCH_SIZE ->
  lines_step w lines = Ok w' ->
  Forall (fun b => Z.of_nat (List.length b) = BATCH_SIZE) (flushed w) ->
  Z.of_nat (List.length (batch w)) < BATCH_SIZE ->
  Forall (fun b => Z.of_nat (List.length b) = BATCH_SIZE) (flushed w')
  /\ Z.of_nat (List.length (batch w')) < BATCH_SIZE.
Proof.
  intros Hpos. revert w. induction lines as [| l lines IH]; intros w.
  - intros [= <-]. auto.
  - cbn [process_lines].
    destruct (process_line _ _ _ _ w l) as [w1 |] eqn:E; [| discriminate].
    cbn [bind]. intros Hrest Hfull Hopen.
    destruct (line_full_batches _ _ _ Hpos E Hfull Hopen) as [Hfull1 Hopen1].
    apply (IH _ Hrest Hfull1 Hopen1).
Qed.

Lemma full_batches_length (B : Z) (bs : list (list dbrow)) :
  Forall (fun b => Z.of_nat (List.length b) = B) bs ->
  Z.of_nat (List.length (List.concat bs)) = B * Z.of_nat (List.length bs).
Proof.
  induction 1 as [| b bs Hb _ IH]; cbn [List.concat List.length]; [lia |].
  rewrite length_app. lia.
Qed.

(** X3.  With a batch size of at least one, every batch a returning worker has
    sent holds exactly [BATCH_SIZE] rows, but the last, sent after the last
    file, which may hold fewer and holds at least one; the number of batches
    is the number of kept rows divided by [BATCH_SIZE], rounded up. *)
Theorem batches_are_full (file_paths : list string) (st : db) (w : worker db) :
  1 <= BATCH_SIZE ->
  run file_paths st = Ok w ->
  (exists full rest,
      flushed w = full ++ rest
      /\ Forall (fun b => Z.of_nat (List.length b) = BATCH_SIZE) full
      /\ (rest = []
          \/ exists last, rest = [last]
                          /\ 1 <= Z.of_nat (List.length last) < BATCH_SIZE))
  /\ Z.of_nat (List.length (flushed w))
     = (Z.of_nat (List.length (rows_of json_loads (lines_of fs file_paths)))
        + BATCH_SIZE - 1) / BATCH_SIZE.
Proof.
  intros Hpos Hrun.
  destruct (run_kept_rows _ _ _ Hrun) as [_ Hrows].
  rewrite <- Hrows. clear Hrows.
  unfold process_files in Hrun. rewrite paths_as_lines in Hrun.
  destruct (process_lines _ _ _ _ (connect st) _) as [w1 |] eqn:E;
    [| discriminate].
  cbn [bind] in Hrun.
  destruct (lines_full_batches _ _ _ Hpos E) as [Hfull Hopen];
    [constructor | cbn; lia |].
  pose proof (full_batches_length _ _ Hfull) as Hlen.
  destruct (batch w1) as [| r b] eqn:Eb.
  - injection Hrun as <-. split.
    + exists (flushed w1), []. rewrite app_nil_r. auto.
    + rewrite Hlen.
      apply (Z.div_unique _ _ _ (BATCH_SIZE - 1)); lia.
  - apply flush_shape in Hrun as (_ & Hfl & _). rewrite Hfl, Eb.
    cbn [List.length] in Hopen. split.
    + exists (flushed w1), [r :: b]. split; [reflexivity |].
      split; [exact Hfull |]. right. exists (r :: b).
      split; [reflexivity |]. cbn [List.length]. lia.
    + rewrite concat_app, !length_app.
      cbn [List.concat List.length app]. rewrite app_nil_r.
      cbn [List.length]. rewrite !Nat2Z.inj_add, Hlen.
      apply (Z.div_unique _ _ _ (Z.of_nat (S (List.length b)) - 1)); lia.
Qed.

Lemma line_single_batches (w w' : worker db) (line : string) :
  BATCH_SIZE <= 1 ->
  line_step w line = Ok w' -> batch w = [] ->
  batch w' = []
  /\ flushed w'
     = flushed w ++ map (fun r => [r]) (rows_of json_loads [line]).
Proof.
  intros Hone. rewrite line_fate. unfold rows_of. cbn [flat_map].
  destruct (fate_of json_loads line) as [| | r | e]; try discriminate.
  - intros [= <-] Hb. cbn. now rewrite app_nil_r.
  - intros [= <-] Hb. cbn. now rewrite app_nil_r.
  - cbn zeta. intros H Hb.
    assert (Hbatch : batch (append (count_read w) r) = [r])
      by (cbn; now rewrite Hb).
    rewrite Hbatch in H. cbn [List.length] in H.
    destruct (Z.leb_spec BATCH_SIZE (Z.of_nat 1)); [| lia].
    apply flush_shape in H as (Hb' & Hfl & _).
    rewrite Hb', Hfl, Hbatch. split; reflexivity.
Qed.

(** X4.  With a batch size of one, of zero or below, every kept row is sent to
    the store in a batch of its own, as soon as its line is read. *)
Theorem batches_of_one (file_paths : list string) (st : db) (w : worker db) :
  BATCH_SIZE <= 1 ->
  run file_paths st = Ok w ->
  flushed w
  = map (fun r => [r]) (rows_of json_loads (lines_of fs file_paths)).
Proof.
  intros Hone Hrun.
  unfold process_files in Hrun. rewrite paths_as_lines in Hrun.
  destruct (process_lines _ _ _ _ (connect st) _) as [w1 |] eqn:E;
    [| discriminate].
  cbn [bind] in Hrun.
  assert (Hall : forall lines (w0 w2 : worker db),
             lines_step w0 lines = Ok w2 -> batch w0 = [] ->
             batch w2 = []
             /\ flushed w2
                = flushed w0 ++ map (fun r => [r]) (rows_of json_loads lines)).
  { induction lines as [| l lines IH]; intros w0 w2.
    - intros [= <-] Hb. cbn. now rewrite app_nil_r.
    - cbn [process_lines].
      destruct (process_line _ _ _ _ w0 l) as [w3 |] eqn:El; [| discriminate].
      cbn [bind]. intros Hrest Hb.
      destruct (line_single_batches _ _ _ Hone El Hb) as [Hb3 Hf3].
      destruct (IH _ _ Hrest Hb3) as [Hb2 Hf2].
      split; [exact Hb2 |].
      now rewrite Hf2, Hf3, (rows_of_cons l lines), map_app, app_assoc. }
  destruct (Hall _ _ _ E eq_refl) as [Hb Hf].
  rewrite Hb in Hrun. injection Hrun as <-. exact Hf.
Qed.

(** A worker that returns has met no line that raises. *)
Lemma lines_ok_no_error (lines : list string) (w w' : worker db) :
  lines_step w lines = Ok w' -> first_error json_loads lines = None.
Proof.
  revert w. induction lines as [| l lines IH]; intros w; [reflexivity |].
  cbn [process_lines first_error]. rewrite line_fate.
  destruct (fate_of json_loads l) as [| | r | e]; cbn [bind].
  - apply IH.
  - apply IH.
  - cbn zeta. destruct (_ <=? _).
    + destruct (flush _ _ _) as [w1 |]; cbn [bind]; [apply IH | discriminate].
    + cbn [bind]. apply IH.
  - discriminate.
Qed.

(** A property every line keeps is kept by a sequence of lines. *)
Lemma lines_invariant (P : worker db -> Prop) :
  (forall w line w', P w -> line_step w line = Ok w' -> P w') ->
  forall lines w w', P w -> lines_step w lines = Ok w' -> P w'.
Proof.
  intros Hstep. induction lines as [| l lines IH]; intros w w' Hw.
  - now intros [= <-].
  - cbn [process_lines].
    destruct (process_line _ _ _ _ w l) as [w1 |] eqn:E; [| discriminate].
    cbn [bind]. apply IH. apply (Hstep _ _ _ Hw E).
Qed.

End WorkerRefinement.

Arguments line_fate json_loads {db} execute commit BATCH_SIZE w line.
Arguments flush_shape {db} execute commit w w' _.
Arguments paths_as_lines json_loads {db} execute commit fs BATCH_SIZE w file_paths.
Arguments lines_without_blanks json_loads {db} execute commit BATCH_SIZE w lines.
Arguments lines_shape json_loads {db} execute commit BATCH_SIZE lines w w' _.
Arguments run_shape json_loads {db} execute commit fs BATCH_SIZE file_paths st w _.
Arguments run_kept_rows json_loads {db} execute commit fs BATCH_SIZE
  file_paths st w _.
Arguments lines_ok_no_error json_loads {db} execute commit BATCH_SIZE lines w w' _.
Arguments run_counters json_loads {db} execute commit fs BATCH_SIZE
  file_paths st w _.

Lemma batches_are_the_kept_rows_witness :
  exists w,
    demo_run 2 = Ok w
    /\ map (@List.length dbrow) (flushed w) = [2; 2]%nat
    /\ batch w = []
    /\ List.concat (flushed w)
       = rows_of Loads.loads (lines_of (one_file demo_lines) ["raw1.json"]).
Proof.
  eexists. split; [vm_compute; reflexivity |]. split; [reflexivity |].
  refine (batches_are_the_kept_rows Loads.loads Table.t Table.execute
            Table.commit (one_file demo_lines) 2 ["raw1.json"]
            Table.empty _ _).
  vm_compute. reflexivity.
Defined.

Lemma read_and_skipped_of_the_lines_witness :
  exists w,
    demo_run 2 = Ok w
    /\ counts w = (3, 2, 6)
    /\ read_count w = nonblank (lines_of (one_file demo_lines) ["raw1.json"])
    /\ skipped w
       = skipped_of Loads.loads (lines_of (one_file demo_lines) ["raw1.json"])
    /\ read_count w
       = skipped w
         + Z.of_nat (List.length
                       (rows_of Loads.loads
                          (lines_of (one_file demo_lines) ["raw1.json"]))).
Proof.
  eexists. split; [vm_compute; reflexivity |]. split; [reflexivity |].
  refine (read_and_skipped_of_the_lines Loads.loads Table.t Table.execute
            Table.commit (one_file demo_lines) 2 ["raw1.json"]
            Table.empty _ _).
  vm_compute. reflexivity.
Defined.

Lemma batches_are_full_witness :
  exists w,
    demo_run 3 = Ok w
    /\ map (@List.length dbrow) (flushed w) = [3; 1]%nat
    /\ Z.of_nat (List.length (flushed w))
       = (Z.of_nat (List.length
                      (rows_of Loads.loads
                         (lines_of (one_file demo_lines) ["raw1.json"])))
          + 3 - 1) / 3.
Proof.
  eexists. split; [vm_compute; reflexivity |]. split; [reflexivity |].
  refine (proj2 (batches_are_full Loads.loads Table.t Table.execute
                   Table.commit (one_file demo_lines) 3 ["raw1.json"]
                   Table.empty _ _ _)).
  - lia.
  - vm_compute. reflexivity.
Defined.

Lemma batches_of_one_witness :
  exists w,
    demo_run 0 = Ok w
    /\ map (@List.length dbrow) (flushed w) = [1; 1; 1; 1]%nat
    /\ flushed w
       = map (fun r => [r])
             (rows_of Loads.loads
                (lines_of (one_file demo_lines) ["raw1.json"])).
Proof.
  eexists. split; [vm_compute; reflexivity |]. split; [reflexivity |].
  refine (batches_of_one Loads.loads Table.t Table.execute Table.commit
            (one_file demo_lines) 0 ["raw1.json"] Table.empty _ _ _).
  - lia.
  - vm_compute. reflexivity.
Defined.

(** X5.  The result of a worker depends on the non-blank lines of the files that
    exist, in order, and on nothing else of the chunk: a path that is not a
    file, a blank line and the way the lines are spread over the files change
    neither the counters nor what is sent to the store. *)
Theorem run_of_the_nonblank_lines
  (json_loads : string -> option json) (db : Type)
  (execute : db -> list dbrow -> exc (db * Z)) (commit : db -> exc db)
  (BATCH_SIZE : Z) (fs fs' : string -> option (list string))
  (file_paths file_paths' : list string) (st : db) :
  filter (fun l => negb (blank l)) (lines_of fs file_paths)
  = filter (fun l => negb (blank l)) (lines_of fs' file_paths') ->
  process_files json_loads execute commit fs BATCH_SIZE file_paths st
  = process_files json_loads execute commit fs' BATCH_SIZE file_paths' st.
Proof.
  intros H. unfold process_files.
  rewrite !paths_as_lines.
  rewrite (lines_without_blanks _ _ _ _ _ (lines_of fs file_paths)).
  rewrite (lines_without_blanks _ _ _ _ _ (lines_of fs' file_paths')).
  now rewrite H.
Qed.

Lemma run_of_the_nonblank_lines_witness :
  process_files Loads.loads Table.execute Table.commit two_files 3
    ["raw0.json"; "raw1.json"; "raw2.json"] Table.empty
  = demo_run 3.
Proof.
  apply (run_of_the_nonblank_lines Loads.loads Table.t Table.execute
           Table.commit 3 two_files (one_file demo_lines)
           ["raw0.json"; "raw1.json"; "raw2.json"] ["raw1.json"] Table.empty).
  vm_compute. reflexivity.
Defined.

Section AnsweringStore.

Variable json_loads : string -> option json.
Variable db : Type.
Variable execute : db -> list dbrow -> exc (db * Z).
Variable commit : db -> exc db.
Variable fs : string -> option (list string).
Variable BATCH_SIZE : Z.

Hypothesis execute_answers : forall st rows, exists r, execute st rows = Ok r.
Hypothesis commit_answers : forall st, exists st', commit st = Ok st'.

Lemma flush_answers (w : worker db) :
  exists w', flush execute commit w = Ok w'.
Proof.
  unfold flush, execute_values.
  assert (Hp : forall pages c, exists c', execute_pages execute c pages = Ok c').
  { induction pages as [| p pages IH]; intros c; [now eexists |].
    cbn [execute_pages]. destruct (execute_answers (store c) p) as [r ->].
    cbn [bind]. apply IH. }
  destruct (Hp (paginate (batch w) 100) (cur w)) as [c ->]. cbn [bind].
  destruct (commit_answers (store c)) as [st' ->]. now eexists.
Qed.

Lemma lines_first_error (lines : list string) (w : worker db) :
  match first_error json_loads lines with
  | Some e => process_lines json_loads execute commit BATCH_SIZE w lines = Raise e
  | None =>
      exists w', process_lines json_loads execute commit BATCH_SIZE w lines = Ok w'
  end.
Proof.
  revert w. induction lines as [| l lines IH]; intros w; [now eexists |].
  cbn [first_error process_lines]. rewrite line_fate.
  destruct (fate_of json_loads l) as [| | r | e]; cbn [bind].
  - apply IH.
  - apply IH.
  - cbn zeta. destruct (_ <=? _).
    + destruct (flush_answers (append (count_read w) r)) as [w1 ->].
      cbn [bind]. apply IH.
    + cbn [bind]. apply IH.
  - reflexivity.
Qed.

Lemma run_first_error (file_paths : list string) (st : db) :
  match first_error json_loads (lines_of fs file_paths) with
  | Some e =>
      process_files json_loads execute commit fs BATCH_SIZE file_paths st
      = Raise e
  | None =>
      exists w,
        process_files json_loads execute commit fs BATCH_SIZE file_paths st
        = Ok w
  end.
Proof.
  unfold process_files. rewrite paths_as_lines.
  pose proof (lines_first_error (lines_of fs file_paths) (connect st)) as H.
  destruct (first_error json_loads (lines_of fs file_paths)) as [e |].
  - now rewrite H.
  - destruct H as [w1 ->]. cbn [bind].
    destruct (batch w1); [now eexists | apply flush_answers].
Qed.


End AnsweringStore.

Lemma table_execute_answers (st : Table.t) (rows : list dbrow) :
  exists r, Table.execute st rows = Ok r.
Proof. unfold Table.execute. now eexists. Qed.

Lemma table_commit_answers (st : Table.t) :
  exists st', Table.commit st = Ok st'.
Proof. unfold Table.commit. now eexists. Qed.


(** X7.  For a store whose statements insert no more rows than they list, the
    counter [inserted] a worker returns is not negative and is at most the
    number of rows it has sent, so that [inserted + skipped <= read]. *)
Theorem inserted_within_sent
  (json_loads : string -> option json) (db : Type)
  (execute : db -> list dbrow -> exc (db * Z)) (commit : db -> exc db)
  (fs : string -> option (list string)) (BATCH_SIZE : Z)
  (file_paths : list string) (st : db) (w : worker db) :
  (forall st rows st' n,
      execute st rows = Ok (st', n) -> 0 <= n <= Z.of_nat (List.length rows)) ->
  process_files json_loads execute commit fs BATCH_SIZE file_paths st = Ok w ->
  0 <= inserted w <= Z.of_nat (List.length (List.concat (flushed w)))
  /\ inserted w + skipped w <= read_count w.
Proof.
  intros Hex Hrun.
  destruct (worker_counts _ _ _ _ _ _ Hex _ _ _ Hrun)
    as (_ & _ & Hread & _ & Hpos & Hle).
  repeat split; lia.
Qed.

Lemma inserted_within_sent_witness :
  exists w,
    demo_run 3 = Ok w
    /\ counts w = (3, 2, 6)
    /\ 0 <= inserted w <= Z.of_nat (List.length (List.concat (flushed w)))
    /\ inserted w + skipped w <= read_count w.
Proof.
  eexists. split; [vm_compute; reflexivity |]. split; [reflexivity |].
  refine (inserted_within_sent Loads.loads Table.t Table.execute Table.commit
            (one_file demo_lines) 3 ["raw1.json"] Table.empty _
            table_execute_rowcount _).
  vm_compute. reflexivity.
Defined.

(** * The reference table after a run *)

Lemma same_key_refl (r : dbrow) : Table.same_key r r = true.
Proof. unfold Table.same_key. now rewrite Z.eqb_refl, String.eqb_refl. Qed.

Lemma accepted_app (tbl a b : list dbrow) :
  Table.accepted tbl (a ++ b)
  = Table.accepted tbl a ++ Table.accepted (tbl ++ Table.accepted tbl a) b.
Proof.
  revert tbl. induction a as [| r a IH]; intros tbl; cbn.
  - now rewrite app_nil_r.
  - destruct (existsb (Table.same_key r) tbl); [apply IH |].
    cbn. rewrite IH, <- app_assoc. reflexivity.
Qed.

(** A row of a statement is in the table after it, or a row of its key is. *)
Lemma accepted_covers (rows tbl : list dbrow) (r : dbrow) :
  In r rows ->
  existsb (Table.same_key r) (tbl ++ Table.accepted tbl rows) = true.
Proof.
  revert tbl. induction rows as [| r0 rows IH]; intros tbl; [contradiction |].
  cbn [Table.accepted In].
  destruct (existsb (Table.same_key r0) tbl) eqn:E.
  - intros [<- | Hin]; [| now apply IH].
    rewrite existsb_app, E. reflexivity.
  - replace (tbl ++ r0 :: Table.accepted (tbl ++ [r0]) rows)
      with ((tbl ++ [r0]) ++ Table.accepted (tbl ++ [r0]) rows)
      by (now rewrite <- app_assoc).
    intros [<- | Hin]; [| now apply IH].
    rewrite !existsb_app. cbn. rewrite same_key_refl, orb_true_r. reflexivity.
Qed.

(** Rows whose keys are all in the table leave it as it is. *)
Lemma accepted_none (rows tbl : list dbrow) :
  (forall r, In r rows -> existsb (Table.same_key r) tbl = true) ->
  Table.accepted tbl rows = [].
Proof.
  induction rows as [| r rows IH]; intros H; [reflexivity |].
  cbn. rewrite (H r (or_introl eq_refl)). apply IH.
  intros r' Hin. apply H. now right.
Qed.

Lemma table_pages (pages : list (list dbrow)) (c c' : cursor Table.t) :
  execute_pages Table.execute c pages = Ok c' ->
  Table.committed (store c') = Table.committed (store c)
  /\ Table.pending (store c')
     = Table.pending (store c)
       ++ Table.accepted (Table.committed (store c) ++ Table.pending (store c))
            (List.concat pages).
Proof.
  revert c. induction pages as [| p pages IH]; intros c.
  - intros [= <-]. cbn. now rewrite app_nil_r.
  - cbn [execute_pages Table.execute bind fst snd].
    intros H. apply IH in H as [Hc Hp]. cbn in Hc, Hp.
    split; [exact Hc |].
    rewrite Hp. cbn [List.concat]. rewrite accepted_app.
    now rewrite <- !app_assoc.
Qed.

Lemma table_flush (w w' : worker Table.t) :
  flush Table.execute Table.commit w = Ok w' ->
  store (cur w')
  = {| Table.committed :=
         Table.committed (store (cur w))
         ++ Table.pending (store (cur w))
         ++ Table.accepted (Table.committed (store (cur w))
                            ++ Table.pending (store (cur w)))
              (batch w);
       Table.pending := [] |}.
Proof.
  unfold flush, execute_values.
  destruct (execute_pages _ _ _) as [c |] eqn:E; [| discriminate].
  cbn [bind Table.commit]. intros [= <-]. cbn.
  apply table_pages in E as [Hc Hp]. rewrite paginate_concat in Hp.
  now rewrite Hc, Hp.
Qed.

Lemma table_after_run_eq
  (json_loads : string -> option json) (fs : string -> option (list string))
  (BATCH_SIZE : Z) (file_paths : list string) (tbl : list dbrow)
  (w : worker Table.t) :
  process_files json_loads Table.execute Table.commit fs BATCH_SIZE file_paths
    {| Table.committed := tbl; Table.pending := [] |} = Ok w ->
  store (cur w)
  = {| Table.committed :=
         tbl ++ Table.accepted tbl
                  (rows_of json_loads (lines_of fs file_paths));
       Table.pending := [] |}.
Proof.
  intros Hrun.
  destruct (run_kept_rows _ _ _ _ _ _ _ _ Hrun) as [_ Hrows].
  rewrite <- Hrows. clear Hrows.
  set (P := fun w : worker Table.t =>
              store (cur w)
              = {| Table.committed :=
                     tbl ++ Table.accepted tbl (List.concat (flushed w));
                   Table.pending := [] |}).
  assert (Hflush : forall w0 w1,
             P w0 -> flush Table.execute Table.commit w0 = Ok w1 -> P w1).
  { unfold P. intros w0 w1 H0 Hf.
    rewrite (table_flush _ _ Hf), H0. cbn.
    apply flush_shape in Hf as (_ & Hfl & _).
    rewrite Hfl, concat_app, accepted_app. cbn.
    now rewrite !app_nil_r, <- app_assoc. }
  assert (Hline : forall w0 line w1,
             P w0 ->
             process_line json_loads Table.execute Table.commit BATCH_SIZE
               w0 line = Ok w1 -> P w1).
  { intros w0 line w1 H0. rewrite line_fate.
    destruct (fate_of json_loads line) as [| | r | e]; try discriminate.
    - now intros [= <-].
    - now intros [= <-].
    - cbn zeta. destruct (_ <=? _).
      + apply Hflush. exact H0.
      + now intros [= <-]. }
  unfold process_files in Hrun. rewrite paths_as_lines in Hrun.
  destruct (process_lines _ _ _ _ _ _) as [w1 |] eqn:E; [| discriminate].
  cbn [bind] in Hrun.
  assert (H1 : P w1).
  { refine (lines_invariant json_loads Table.t Table.execute Table.commit
              BATCH_SIZE P Hline _ _ _ _ E).
    unfold P. cbn. now rewrite app_nil_r. }
  destruct (batch w1); [now injection Hrun as <- |].
  apply (Hflush _ _ H1 Hrun).
Qed.



Lemma lines_invariant_in (json_loads : string -> option json) (db : Type)
  (execute : db -> list dbrow -> exc (db * Z)) (commit : db -> exc db)
  (BATCH_SIZE : Z) (P : worker db -> Prop) (lines : list string) :
  (forall w line w',
      In line lines -> P w ->
      process_line json_loads execute commit BATCH_SIZE w line = Ok w' ->
      P w') ->
  forall w w',
    P w ->
    process_lines json_loads execute commit BATCH_SIZE w lines = Ok w' ->
    P w'.
Proof.
  induction lines as [| l lines IH]; intros Hstep w w' Hw.
  - now intros [= <-].
  - cbn [process_lines].
    destruct (process_line _ _ _ _ w l) as [w1 |] eqn:E; [| discriminate].
    cbn [bind]. apply IH.
    + intros w0 line w2 Hin. apply Hstep. now right.
    + apply (Hstep _ _ _ (or_introl eq_refl) Hw E).
Qed.

Lemma in_rows_of (json_loads : string -> option json) (lines : list string)
  (line : string) (r : dbrow) :
  In line lines -> fate_of json_loads line = Keep r ->
  In r (rows_of json_loads lines).
Proof.
  intros Hin Hf. unfold rows_of. apply in_flat_map. exists line.
  split; [exact Hin |]. rewrite Hf. now left.
Qed.

(** Statements whose rows all have their key in a table with no open
    transaction leave it as it is and report no row. *)
Lemma table_pages_conflict (tbl : list dbrow) (pages : list (list dbrow))
  (c c' : cursor Table.t) :
  (forall p r, In p pages -> In r p ->
               existsb (Table.same_key r) tbl = true) ->
  store c = {| Table.committed := tbl; Table.pending := [] |} ->
  execute_pages Table.execute c pages = Ok c' ->
  store c' = {| Table.committed := tbl; Table.pending := [] |}
  /\ (pages <> [] -> rowcount c' = 0).
Proof.
  revert c. induction pages as [| p pages IH]; intros c Hconf Hst.
  - intros [= <-]. split; [exact Hst | congruence].
  - cbn [execute_pages Table.execute bind fst snd]. rewrite Hst. cbn.
    rewrite app_nil_r, (accepted_none p tbl)
      by (intros r Hr; apply (Hconf p r); [now left | exact Hr]).
    cbn. intros H.
    destruct pages as [| q pages].
    + injection H as <-. cbn. split; [reflexivity | reflexivity].
    + apply IH in H as [Hs Hr].
      * split; [exact Hs |]. intros _. apply Hr. discriminate.
      * intros p' r Hp. apply Hconf. now right.
      * reflexivity.
Qed.

(** X9.  Running a worker a second time on the same files, on the table the
    first run has left, inserts nothing: the table is unchanged, [inserted]
    is zero, and [skipped] and [read] are what they were. *)
Theorem second_run_inserts_nothing
  (json_loads : string -> option json) (fs : string -> option (list string))
  (BATCH_SIZE : Z) (file_paths : list string) (tbl : list dbrow)
  (w : worker Table.t) :
  process_files json_loads Table.execute Table.commit fs BATCH_SIZE file_paths
    {| Table.committed := tbl; Table.pending := [] |} = Ok w ->
  exists w2,
    process_files json_loads Table.execute Table.commit fs BATCH_SIZE
      file_paths (store (cur w)) = Ok w2
    /\ store (cur w2) = store (cur w)
    /\ inserted w2 = 0
    /\ skipped w2 = skipped w
    /\ read_count w2 = read_count w.
Proof.
  intros Hrun.
  pose proof (table_after_run_eq _ _ _ _ _ _ Hrun) as Hst.
  set (rows := rows_of json_loads (lines_of fs file_paths)) in *.
  set (tbl1 := tbl ++ Table.accepted tbl rows) in *.
  assert (Hconf : forall r, In r rows ->
                            existsb (Table.same_key r) tbl1 = true).
  { intros r Hin. now apply accepted_covers. }
  assert (Hnoerr : first_error json_loads (lines_of fs file_paths) = None).
  { unfold process_files in Hrun. rewrite paths_as_lines in Hrun.
    destruct (process_lines _ _ _ _ _ _) as [w1 |] eqn:E; [| discriminate].
    apply (lines_ok_no_error _ _ _ _ _ _ _ E). }
  pose proof (run_first_error json_loads Table.t Table.execute Table.commit
                fs BATCH_SIZE table_execute_answers table_commit_answers
                file_paths (store (cur w))) as H2.
  rewrite Hnoerr in H2. destruct H2 as [w2 H2]. exists w2.
  split; [exact H2 |].
  destruct (run_counters _ _ _ _ _ _ _ _ Hrun) as (Hr & Hs & _).
  destruct (run_counters _ _ _ _ _ _ _ _ H2) as (Hr2 & Hs2 & _).
  rewrite Hr, Hs, Hr2, Hs2.
  cut (store (cur w2) = {| Table.committed := tbl1; Table.pending := [] |}
       /\ inserted w2 = 0).
  { intros [Ha Hb]. rewrite Ha, Hst. repeat split. exact Hb. }
  set (Q := fun w0 : worker Table.t =>
              store (cur w0)
              = {| Table.committed := tbl1; Table.pending := [] |}
              /\ inserted w0 = 0
              /\ forall r, In r (batch w0) -> In r rows).
  assert (Hflush : forall w0 w1,
             Q w0 -> batch w0 <> [] ->
             flush Table.execute Table.commit w0 = Ok w1 -> Q w1).
  { unfold Q. intros w0 w1 (Hs0 & Hi0 & Hb0) Hne. unfold flush, execute_values.
    destruct (execute_pages _ _ _) as [c |] eqn:E; [| discriminate].
    cbn [bind Table.commit]. intros [= <-]. cbn.
    apply (table_pages_conflict tbl1) in E as [Hs1 Hr1].
    - rewrite Hs1. cbn. rewrite app_nil_r. split; [reflexivity |].
      split; [| contradiction].
      rewrite Hi0, Hr1; [reflexivity |].
      intros Hnil. apply Hne.
      pose proof (paginate_concat (batch w0) 100) as Hc.
      rewrite Hnil in Hc. now symmetry.
    - intros p r Hp Hrp. apply Hconf, Hb0.
      rewrite <- (paginate_concat (batch w0) 100).
      apply in_concat. now exists p.
    - exact Hs0. }
  assert (Hline : forall w0 line w1,
             In line (lines_of fs file_paths) -> Q w0 ->
             process_line json_loads Table.execute Table.commit BATCH_SIZE
               w0 line = Ok w1 -> Q w1).
  { intros w0 line w1 Hin H0. rewrite line_fate.
    destruct (fate_of json_loads line) as [| | r | e] eqn:Ef; try discriminate.
    - now intros [= <-].
    - now intros [= <-].
    - cbn zeta.
      assert (Hq : Q (append (count_read w0) r)).
      { destruct H0 as (Hs0 & Hi0 & Hb0). unfold Q. cbn.
        split; [exact Hs0 |]. split; [exact Hi0 |].
        intros r' Hr'. apply in_app_or in Hr' as [Hr' | [<- | []]].
        - now apply Hb0.
        - apply (in_rows_of _ _ _ _ Hin Ef). }
      destruct (_ <=? _).
      + apply (Hflush _ _ Hq). cbn. now destruct (batch w0).
      + now intros [= <-]. }
  unfold process_files in H2. rewrite paths_as_lines in H2.
  destruct (process_lines _ _ _ _ _ _) as [w1 |] eqn:E; [| discriminate].
  cbn [bind] in H2.
  assert (H1 : Q w1).
  { refine (lines_invariant_in json_loads Table.t Table.execute Table.commit
              BATCH_SIZE Q _ Hline _ _ _ E).
    unfold Q. cbn. rewrite Hst. repeat split. contradiction. }
  destruct (batch w1) as [| r b] eqn:Eb.
  - injection H2 as <-. destruct H1 as (Ha & Hb & _). now split.
  - assert (Hne : batch w1 <> []) by (rewrite Eb; discriminate).
    destruct (Hflush _ _ H1 Hne H2) as (Ha & Hb & _). now split.
Qed.

Lemma second_run_inserts_nothing_witness :
  exists w,
    demo_run 3 = Ok w
    /\ counts w = (3, 2, 6)
    /\ exists w2,
        process_files Loads.loads Table.execute Table.commit
          (one_file demo_lines) 3 ["raw1.json"] (store (cur w)) = Ok w2
        /\ store (cur w2) = store (cur w)
        /\ inserted w2 = 0
        /\ skipped w2 = skipped w
        /\ read_count w2 = read_count w.
Proof.
  eexists. split; [vm_compute; reflexivity |]. split; [reflexivity |].
  refine (second_run_inserts_nothing Loads.loads (one_file demo_lines) 3
            ["raw1.json"] [] _ _).
  vm_compute. reflexivity.
Defined.

(** * Further properties of the projector and of the timestamp extractor *)

(** X10.  The outcome of [extract_row] on every value: on a value that is not a
    dictionary it raises [AttributeError]; on a dictionary whose [source] is
    truthy and neither a string nor a list it raises [TypeError]; otherwise,
    when [user] is truthy and not a dictionary, it raises [AttributeError];
    in every other case it returns a row. *)
Theorem extract_row_outcome (obj : json) :
  match obj with
  | JDict d =>
      match py_or (field d "source") (JStr "") with
      | JStr _ | JList _ =>
          if negb (truthy (field d "user")) || is_dict (field d "user")
          then exists r, extract_row obj = Ok r
          else extract_row obj = Raise AttributeError
      | _ => extract_row obj = Raise TypeError
      end
  | _ => extract_row obj = Raise AttributeError
  end.
Proof.
  destruct obj; try reflexivity.
  rewrite extract_row_dict. cbn zeta.
  assert (Hp : exists v,
             (if truthy (field d "place") && is_dict (field d "place")
              then get (field d "place") "name" else Ok JNull) = Ok v).
  { destruct (truthy (field d "place")); cbn [andb]; [| now eexists].
    destruct (field d "place"); cbn; now eexists. }
  destruct Hp as [pl ->]. cbn [bind].
  destruct (py_or (field d "source") (JStr "")) eqn:Es; try reflexivity.
  - cbn [slice_to bind]. unfold py_or.
    destruct (truthy (field d "user")) eqn:Eu; cbn [negb orb].
    + destruct (field d "user"); cbn; try reflexivity. now eexists.
    + cbn. now eexists.
  - cbn [slice_to bind]. unfold py_or.
    destruct (truthy (field d "user")) eqn:Eu; cbn [negb orb].
    + destruct (field d "user"); cbn; try reflexivity. now eexists.
    + cbn. now eexists.
Qed.

Lemma str_take_le (n : nat) (s : string) :
  (String.length (str_take n s) <= n)%nat.
Proof.
  revert s. induction n as [| n IH]; intros s; [cbn; lia |].
  destruct s as [| c s]; cbn; [lia |]. specialize (IH s). lia.
Qed.

Lemma py_or_truthy (a b : json) : truthy b = true -> truthy (py_or a b) = true.
Proof. unfold py_or. intros H. destruct (truthy a) eqn:E; assumption. Qed.

(** X11.  In every row [extract_row] returns, the language is truthy, the default
    ["und"] standing for a null, empty or absent [lang], and the source is a
    string of at most 100 characters or a list of at most 100 items, never
    null. *)
Theorem row_lang_and_source (obj : json) (r : row) :
  extract_row obj = Ok r ->
  truthy (lang r) = true
  /\ (forall d, obj = JDict d -> truthy (field d "lang") = false ->
                lang r = JStr "und")
  /\ ((exists s, source r = JStr s /\ (String.length s <= 100)%nat)
      \/ (exists l, source r = JList l /\ (List.length l <= 100)%nat)).
Proof.
  intros H. apply extract_row_inv in H as (d & -> & Hs & Hl & _).
  rewrite Hl. split; [now apply py_or_truthy |]. split.
  - intros d' [= <-] Hf. unfold py_or. now rewrite Hf.
  - destruct (py_or (field d "source") (JStr "")) as [| | | | s | l |];
      cbn [slice_to] in Hs; try discriminate Hs.
    + left. exists (str_take 100 s). split; [congruence | apply str_take_le].
    + right. exists (firstn 100 l).
      split; [congruence | apply firstn_le_length].
Qed.

Lemma row_lang_and_source_witness :
  truthy (JStr "und") = true
  /\ (forall d, JDict [("lang", JStr ""); ("source", JStr long_source)]
                = JDict d ->
                truthy (field d "lang") = false -> JStr "und" = JStr "und")
  /\ ((exists s, JStr (str_take 100 long_source) = JStr s
                 /\ (String.length s <= 100)%nat)
      \/ (exists l, JStr (str_take 100 long_source) = JList l
                    /\ (List.length l <= 100)%nat)).
Proof.
  apply (row_lang_and_source
           (JDict [("lang", JStr ""); ("source", JStr long_source)])
           {| lang := JStr "und"; source := JStr (str_take 100 long_source);
              screen_name := JNull; place := JNull; quote_count := JNull;
              favorited := JNull; coordinates := None; entities := None;
              friends_count := JNull; user_id := JNull |}).
  reflexivity.
Defined.

(** What a returned row says of [place] and [user]. *)
Lemma extract_row_nested (d : list (string * json)) (r : row) :
  extract_row (JDict d) = Ok r ->
  (if truthy (field d "place") && is_dict (field d "place")
   then get (field d "place") "name" else Ok JNull) = Ok (place r)
  /\ get (py_or (field d "user") (JDict [])) "screen_name"
     = Ok (screen_name r)
  /\ get (py_or (field d "user") (JDict [])) "friends_count"
     = Ok (friends_count r)
  /\ get (py_or (field d "user") (JDict [])) "id" = Ok (user_id r).
Proof.
  rewrite extract_row_dict. cbn zeta.
  destruct (if truthy (field d "place") && is_dict (field d "place")
            then get (field d "place") "name" else Ok JNull);
    [| discriminate].
  cbn [bind].
  destruct (slice_to 100 (py_or (field d "source") (JStr "")));
    [| discriminate].
  cbn [bind].
  destruct (get (py_or (field d "user") (JDict [])) "screen_name");
    [| discriminate].
  cbn [bind].
  destruct (get (py_or (field d "user") (JDict [])) "friends_count");
    [| discriminate].
  cbn [bind].
  destruct (get (py_or (field d "user") (JDict [])) "id"); [| discriminate].
  cbn [bind]. intros [= <-]. cbn. repeat split.
Qed.

(** X12.  In the row of a record, [place] is the [name] of the raw [place] when
    that is a non-empty mapping (null when it has no [name]) and null for any
    other shape; [screen_name], [friends_count] and [user_id] are the fields
    of the raw [user] when that is a non-empty mapping, null when a field is
    missing, and all three are null when [user] is absent, null or empty. *)
Theorem row_place_and_user (d : list (string * json)) (r : row) :
  extract_row (JDict d) = Ok r ->
  (forall p, lookup "place" d = Some (JDict p) ->
             place r = field p "name")
  /\ ((forall p, lookup "place" d <> Some (JDict p)) -> place r = JNull)
  /\ (forall u, lookup "user" d = Some (JDict u) ->
                screen_name r = field u "screen_name"
                /\ friends_count r = field u "friends_count"
                /\ user_id r = field u "id")
  /\ (truthy (field d "user") = false ->
      screen_name r = JNull /\ friends_count r = JNull /\ user_id r = JNull).
Proof.
  intros H. apply extract_row_nested in H as (Hp & Hs & Hf & Hi).
  split; [| split; [| split]].
  - intros p Hl. rewrite (field_some _ _ _ Hl) in Hp.
    destruct p as [| kv p]; cbn [truthy is_dict andb] in Hp.
    + unfold field. cbn [lookup]. congruence.
    + rewrite get_dict in Hp. congruence.
  - intros Hn.
    assert (E : is_dict (field d "place") = false).
    { unfold field. destruct (lookup "place" d) as [[] |]; try reflexivity.
      now destruct (Hn d0). }
    rewrite E, andb_false_r in Hp. congruence.
  - intros u Hl. rewrite (field_some _ _ _ Hl) in Hs, Hf, Hi.
    unfold py_or in Hs, Hf, Hi.
    destruct u as [| kv u]; cbn [truthy] in Hs, Hf, Hi;
      rewrite get_dict in Hs, Hf, Hi.
    + unfold field in *. cbn [lookup] in *. repeat split; congruence.
    + repeat split; congruence.
  - intros Hu. unfold py_or in Hs, Hf, Hi. rewrite Hu in Hs, Hf, Hi.
    rewrite get_dict in Hs, Hf, Hi. unfold field in Hs, Hf, Hi.
    cbn [lookup] in Hs, Hf, Hi. repeat split; congruence.
Qed.

Lemma row_place_and_user_witness :
  (forall p, lookup "place" placed_record = Some (JDict p) ->
             place placed_row = field p "name")
  /\ ((forall p, lookup "place" placed_record <> Some (JDict p)) ->
      place placed_row = JNull)
  /\ (forall u, lookup "user" placed_record = Some (JDict u) ->
                screen_name placed_row = field u "screen_name"
                /\ friends_count placed_row = field u "friends_count"
                /\ user_id placed_row = field u "id")
  /\ (truthy (field placed_record "user") = false ->
      screen_name placed_row = JNull /\ friends_count placed_row = JNull
      /\ user_id placed_row = JNull).
Proof. apply (row_place_and_user placed_record placed_row). reflexivity. Defined.

(** X13.  [parse_ts] returns [None] exactly for a dictionary whose [timestamp_ms]
    is absent or null and whose [created_at] is absent, null, empty or
    otherwise falsy; a [timestamp_ms] that is not null never leads to
    [None], nor to [created_at]. *)
Theorem parse_ts_none (obj : json) :
  parse_ts obj = Ok None
  <-> exists d,
        obj = JDict d
        /\ field d "timestamp_ms" = JNull
        /\ truthy (field d "created_at") = false.
Proof.
  split.
  - destruct obj; try discriminate. intros H. exists d. split; [reflexivity |].
    unfold parse_ts in H. rewrite !get_dict in H. cbn [bind] in H.
    destruct (field d "timestamp_ms") eqn:Ems; cbn [is_none negb] in H;
      try (destruct (py_int _); cbn [bind] in H;
           [destruct (fromtimestamp_ms _); discriminate H | discriminate H]).
    split; [reflexivity |].
    destruct (truthy (field d "created_at")); [| reflexivity].
    destruct (strptime _); discriminate H.
  - intros (d & -> & Hms & Hc). now rewrite (parse_ts_created _ Hms), Hc.
Qed.

(** * Further properties of [main] *)

Lemma main_plan_ok (CHUNK_SIZE N_WORKERS MAX_FILES : Z) (globbed : list string) :
  1 <= CHUNK_SIZE -> 1 <= N_WORKERS -> discover MAX_FILES globbed <> [] ->
  let files := discover MAX_FILES globbed in
  let c := Z.to_nat (Z.min CHUNK_SIZE (Z.of_nat (List.length files))) in
  let m := Z.to_nat ((Z.of_nat (List.length files) + Z.of_nat c - 1)
                     / Z.of_nat c) in
  main_plan CHUNK_SIZE N_WORKERS MAX_FILES globbed
  = Ok (Some {| chunks := map (fun k => firstn c (skipn (k * c) files))
                              (seq 0 m);
                pool_size := Z.min N_WORKERS (Z.of_nat m) |})
  /\ (1 <= c)%nat /\ (1 <= m)%nat
  /\ ((m - 1) * c < List.length files <= m * c)%nat.
Proof.
  intros Hcs Hnw Hne files c m.
  destruct (main_chunks CHUNK_SIZE files Hcs Hne) as (Hc & Hm & Hlen & Hch).
  fold c in Hc, Hm, Hlen, Hch. fold m in Hm, Hlen, Hch.
  split; [| auto].
  unfold main_plan. fold files.
  destruct files as [| f files'] eqn:E; [contradiction |]. rewrite <- E in *.
  destruct (range0 _ _) as [starts | e]; [| discriminate Hch].
  cbn [bind] in *. injection Hch as Hch. rewrite Hch.
  rewrite length_map, length_seq.
  destruct (Z.ltb_spec (Z.min N_WORKERS (Z.of_nat m)) 1); [lia | reflexivity].
Qed.

Lemma main_plan_refuses (CHUNK_SIZE N_WORKERS MAX_FILES : Z)
  (globbed : list string) :
  discover MAX_FILES globbed <> [] -> CHUNK_SIZE < 1 \/ N_WORKERS < 1 ->
  main_plan CHUNK_SIZE N_WORKERS MAX_FILES globbed = Raise ValueError.
Proof.
  intros Hne Hbad. unfold main_plan.
  destruct (discover MAX_FILES globbed) as [| f files]; [contradiction |].
  set (n := Z.of_nat (List.length (f :: files))).
  assert (Hn : 1 <= n) by (subst n; cbn [List.length]; lia).
  unfold range0.
  destruct (Z.eqb_spec (Z.min CHUNK_SIZE n) 0); [reflexivity |].
  destruct (Z.ltb_spec (Z.min CHUNK_SIZE n) 0).
  - cbn. destruct (Z.ltb_spec (Z.min N_WORKERS 0) 1); [reflexivity | lia].
  - cbn [bind]. rewrite !length_map, length_seq.
    destruct (Z.ltb_spec
                (Z.min N_WORKERS
                   (Z.of_nat (Z.to_nat ((n + Z.min CHUNK_SIZE n - 1)
                                        / Z.min CHUNK_SIZE n)))) 1);
      [reflexivity | lia].
Qed.

(** X14.  The three ways [main] goes on after the files are listed: with no file
    it returns, whatever the sizes; with files and a chunk size or a worker
    count below one it raises [ValueError] ([range] refuses a step of zero,
    [Pool] a size below one) before any worker runs; otherwise it makes a
    pool. *)
Theorem main_plan_outcome (CHUNK_SIZE N_WORKERS MAX_FILES : Z)
  (globbed : list string) :
  match discover MAX_FILES globbed with
  | [] => main_plan CHUNK_SIZE N_WORKERS MAX_FILES globbed = Ok None
  | _ :: _ =>
      if (1 <=? CHUNK_SIZE) && (1 <=? N_WORKERS)
      then exists p,
          main_plan CHUNK_SIZE N_WORKERS MAX_FILES globbed = Ok (Some p)
      else main_plan CHUNK_SIZE N_WORKERS MAX_FILES globbed = Raise ValueError
  end.
Proof.
  destruct (discover MAX_FILES globbed) as [| f files] eqn:E.
  - unfold main_plan. now rewrite E.
  - assert (Hne : discover MAX_FILES globbed <> []) by (rewrite E; discriminate).
    destruct (Z.leb_spec 1 CHUNK_SIZE); cbn [andb].
    + destruct (Z.leb_spec 1 N_WORKERS).
      * eexists. apply main_plan_ok; assumption.
      * apply main_plan_refuses; [exact Hne | now right].
    + apply main_plan_refuses; [exact Hne | now left].
Qed.

Lemma main_plan_some (CHUNK_SIZE N_WORKERS MAX_FILES : Z)
  (globbed : list string) (p : plan) :
  main_plan CHUNK_SIZE N_WORKERS MAX_FILES globbed = Ok (Some p) ->
  1 <= CHUNK_SIZE /\ 1 <= N_WORKERS /\ discover MAX_FILES globbed <> [].
Proof.
  intros H.
  assert (Hne : discover MAX_FILES globbed <> []).
  { intros E. unfold main_plan in H. rewrite E in H. discriminate H. }
  destruct (Z.le_gt_cases 1 CHUNK_SIZE) as [Hc | Hc].
  - destruct (Z.le_gt_cases 1 N_WORKERS) as [Hn | Hn]; [auto |].
    rewrite main_plan_refuses in H; [discriminate H | exact Hne | lia].
  - rewrite main_plan_refuses in H; [discriminate H | exact Hne | lia].
Qed.

(** X15.  When [main] makes a pool, the number of chunks is the number of files
    divided by the chunk size, rounded up (one chunk when the chunk size
    exceeds the number of files), no chunk is empty, and the pool has at
    least one worker, at most the configured number and at most one per
    chunk. *)
Theorem chunks_and_pool (CHUNK_SIZE N_WORKERS MAX_FILES : Z)
  (globbed : list string) (p : plan) :
  main_plan CHUNK_SIZE N_WORKERS MAX_FILES globbed = Ok (Some p) ->
  let n := Z.of_nat (List.length (discover MAX_FILES globbed)) in
  Z.of_nat (List.length (chunks p))
  = (n + Z.min CHUNK_SIZE n - 1) / Z.min CHUNK_SIZE n
  /\ Forall (fun ch => ch <> []) (chunks p)
  /\ 1 <= pool_size p <= N_WORKERS
  /\ pool_size p <= Z.of_nat (List.length (chunks p)).
Proof.
  intros H n. destruct (main_plan_some _ _ _ _ _ H) as (Hc & Hn & Hne).
  destruct (main_plan_ok _ _ _ _ Hc Hn Hne) as (Hp & Hc1 & Hm1 & Hlen).
  cbn zeta in Hp, Hc1, Hm1, Hlen. rewrite Hp in H. injection H as <-.
  cbn [chunks pool_size]. rewrite length_map, length_seq.
  set (c := Z.to_nat (Z.min CHUNK_SIZE
                        (Z.of_nat (List.length (discover MAX_FILES globbed)))))
    in *.
  assert (Hcz : Z.of_nat c = Z.min CHUNK_SIZE n) by (subst c n; lia).
  rewrite <- Hcz. subst n.
  split; [| split; [| lia]].
  - rewrite Z2Nat.id; [reflexivity |].
    apply Z.div_pos; lia.
  - apply Forall_forall. intros ch Hin.
    apply in_map_iff in Hin as (k & <- & Hk). apply in_seq in Hk.
    intros E. apply (f_equal (@List.length string)) in E.
    rewrite chunk_length in E. cbn in E.
    assert (k * c
            <= (Z.to_nat ((Z.of_nat (List.length (discover MAX_FILES globbed))
                           + Z.of_nat c - 1) / Z.of_nat c) - 1) * c)%nat
      by (apply Nat.mul_le_mono_r; lia).
    lia.
Qed.

Lemma chunks_and_pool_witness :
  exists p,
    main_plan 20 8 0 forty_five_files = Ok (Some p)
    /\ Z.of_nat (List.length (chunks p)) = 3
    /\ Forall (fun ch => ch <> []) (chunks p)
    /\ 1 <= pool_size p <= 8
    /\ pool_size p <= Z.of_nat (List.length (chunks p)).
Proof.
  eexists. split; [vm_compute; reflexivity |].
  refine (chunks_and_pool 20 8 0 forty_five_files _ _).
  vm_compute. reflexivity.
Defined.

(** ** The files [main] keeps *)

Lemma insert_sorted_perm (x : string) (l : list string) :
  Permutation (insert_sorted x l) (x :: l).
Proof.
  induction l as [| y l IH]; cbn; [reflexivity |].
  destruct (String.leb x y); [reflexivity |].
  rewrite IH. apply perm_swap.
Qed.

Lemma sort_perm (l : list string) : Permutation (sort l) l.
Proof.
  induction l as [| x l IH]; cbn; [reflexivity |].
  rewrite insert_sorted_perm. now constructor.
Qed.

Lemma insert_sorted_hd (a x : string) (l : list string) :
  HdRel str_le a l -> str_le a x -> HdRel str_le a (insert_sorted x l).
Proof.
  intros Hl Hx. destruct l as [| y l]; cbn; [now constructor |].
  destruct (String.leb x y); constructor; [exact Hx |].
  now inversion Hl.
Qed.

Lemma insert_sorted_sorted (x : string) (l : list string) :
  Sorted str_le l -> Sorted str_le (insert_sorted x l).
Proof.
  induction 1 as [| a l Hs IH Hhd]; cbn.
  - repeat constructor.
  - destruct (String.leb x a) eqn:E.
    + constructor; [now constructor | now constructor].
    + constructor; [exact IH |].
      apply insert_sorted_hd; [exact Hhd |].
      unfold str_le. destruct (String.leb_total x a); congruence.
Qed.

Lemma sort_sorted (l : list string) : Sorted str_le (sort l).
Proof.
  induction l as [| x l IH]; cbn; [constructor |].
  now apply insert_sorted_sorted.
Qed.

Lemma sorted_firstn (k : nat) (l : list string) :
  Sorted str_le l -> Sorted str_le (firstn k l).
Proof.
  intros H. revert k. induction H as [| a l Hs IH Hhd]; intros k.
  - rewrite firstn_nil. constructor.
  - destruct k as [| k]; cbn; [constructor |].
    constructor; [apply IH |].
    destruct l as [| b l]; destruct k; cbn; constructor.
    now inversion Hhd.
Qed.

Lemma in_firstn {A : Type} (k : nat) (l : list A) (x : A) :
  In x (firstn k l) -> In x l.
Proof.
  intros H. rewrite <- (firstn_skipn k l). apply in_or_app. now left.
Qed.

(** The files kept are the first ones of the sorted list of data files. *)
Lemma discover_firstn (MAX_FILES : Z) (globbed : list string) :
  let files := sort (filter is_data_file globbed) in
  let n := Z.of_nat (List.length files) in
  discover MAX_FILES globbed
  = firstn (Z.to_nat (clamp_index n (if MAX_FILES =? 0 then n else MAX_FILES)))
           files.
Proof.
  intros files n. unfold discover, slice. fold is_data_file. fold files.
  fold n.
  assert (H0 : clamp_index n 0 = 0).
  { unfold clamp_index. cbn [Z.ltb Z.compare]. subst n. lia. }
  rewrite H0, Z.sub_0_r. reflexivity.
Qed.

(** X16.  The files [main] hands to the workers are in ascending order, each was
    found by [glob.glob], and none ends with [Zone.Identifier]. *)
Theorem discover_sorted_data_files (MAX_FILES : Z) (globbed : list string) :
  Sorted str_le (discover MAX_FILES globbed)
  /\ forall f, In f (discover MAX_FILES globbed) ->
               In f globbed /\ endswith f "Zone.Identifier" = false.
Proof.
  rewrite discover_firstn. cbn zeta. split.
  - apply sorted_firstn, sort_sorted.
  - intros f Hin. apply in_firstn in Hin.
    apply (Permutation_in _ (sort_perm _)) in Hin.
    apply filter_In in Hin as [Hin Hd]. split; [exact Hin |].
    unfold is_data_file in Hd. now apply negb_true_iff in Hd.
Qed.

(** X17.  The cap on the files: with [MAX_FILES] zero, or not below the number of
    data files, all of them are kept, each as often as [glob.glob] listed
    it; with a positive [MAX_FILES] the first [MAX_FILES] of the sorted list
    are kept; with a negative one the last [-MAX_FILES] are dropped. *)
Theorem discover_cap (MAX_FILES : Z) (globbed : list string) :
  let files := sort (filter is_data_file globbed) in
  let n := Z.of_nat (List.length files) in
  Permutation files (filter is_data_file globbed)
  /\ (MAX_FILES = 0 \/ n <= MAX_FILES -> discover MAX_FILES globbed = files)
  /\ (0 < MAX_FILES ->
      discover MAX_FILES globbed = firstn (Z.to_nat MAX_FILES) files)
  /\ (MAX_FILES < 0 ->
      discover MAX_FILES globbed
      = firstn (List.length files - Z.to_nat (- MAX_FILES)) files).
Proof.
  intros files n. split; [apply sort_perm |].
  rewrite discover_firstn. fold files. fold n. unfold clamp_index.
  split; [| split].
  - intros [-> | Hbig].
    + cbn [Z.eqb]. destruct (Z.ltb_spec n 0); [lia |].
      rewrite Z.min_id. subst n. rewrite Nat2Z.id. apply firstn_all.
    + destruct (Z.eqb_spec MAX_FILES 0).
      * destruct (Z.ltb_spec n 0); [lia |].
        rewrite Z.min_id. subst n. rewrite Nat2Z.id. apply firstn_all.
      * destruct (Z.ltb_spec MAX_FILES 0); [lia |].
        rewrite Z.min_r by lia. subst n. rewrite Nat2Z.id. apply firstn_all.
  - intros Hpos. destruct (Z.eqb_spec MAX_FILES 0); [lia |].
    destruct (Z.ltb_spec MAX_FILES 0); [lia |].
    destruct (Z.le_gt_cases MAX_FILES n).
    + now rewrite Z.min_l.
    + rewrite Z.min_r by lia. subst n. rewrite Nat2Z.id.
      rewrite firstn_all. symmetry. apply firstn_all2. lia.
  - intros Hneg. destruct (Z.eqb_spec MAX_FILES 0); [lia |].
    destruct (Z.ltb_spec MAX_FILES 0); [| lia].
    f_equal. subst n. lia.
Qed.

(** ** The totals [main] reports *)

Lemma lines_of_app (fs : string -> option (list string)) (a b : list string) :
  lines_of fs (a ++ b) = lines_of fs a ++ lines_of fs b.
Proof. unfold lines_of. apply flat_map_app. Qed.

Lemma nonblank_app (a b : list string) :
  nonblank (a ++ b) = nonblank a + nonblank b.
Proof. unfold nonblank. rewrite filter_app, length_app. lia. Qed.

Lemma skipped_of_app (json_loads : string -> option json) (a b : list string) :
  skipped_of json_loads (a ++ b)
  = skipped_of json_loads a + skipped_of json_loads b.
Proof. unfold skipped_of. rewrite filter_app, length_app. lia. Qed.

Lemma pool_totals (json_loads : string -> option json) (db : Type)
  (execute : db -> list dbrow -> exc (db * Z)) (commit : db -> exc db)
  (fs : string -> option (list string)) (BATCH_SIZE : Z)
  (chunks : list (list string)) (ws : list (worker db)) :
  pool_map json_loads execute commit fs BATCH_SIZE chunks ws ->
  snd (totals (map counts ws)) = nonblank (lines_of fs (List.concat chunks))
  /\ snd (fst (totals (map counts ws)))
     = skipped_of json_loads (lines_of fs (List.concat chunks)).
Proof.
  unfold pool_map, totals. cbn [fst snd].
  induction 1 as [| chunk w chunks ws [st Hrun] _ [IHr IHs]].
  - split; reflexivity.
  - destruct (run_counters _ _ _ _ _ _ _ _ Hrun) as (Hr & Hs & _).
    cbn [map sum fold_right List.concat counts fst snd] in *.
    fold (sum (map (fun r : Z * Z * Z => snd r) (map counts ws))).
    fold (sum (map (fun r : Z * Z * Z => snd (fst r)) (map counts ws))).
    rewrite lines_of_app, nonblank_app, skipped_of_app, IHr, IHs, Hr, Hs.
    split; reflexivity.
Qed.

(** X18.  When every worker returns, the totals of [read] and of [skipped] that
    [main] reports are those of the lines of all the files it kept, whatever
    the chunk size, the number of workers, the batch size and the store:
    [read] is the number of non-blank lines and [skipped] the number of lines
    that are skipped. *)
Theorem totals_of_all_files
  (json_loads : string -> option json) (db : Type)
  (execute : db -> list dbrow -> exc (db * Z)) (commit : db -> exc db)
  (fs : string -> option (list string)) (BATCH_SIZE : Z)
  (CHUNK_SIZE N_WORKERS MAX_FILES : Z) (globbed : list string) (p : plan)
  (ws : list (worker db)) :
  main_plan CHUNK_SIZE N_WORKERS MAX_FILES globbed = Ok (Some p) ->
  pool_map json_loads execute commit fs BATCH_SIZE (chunks p) ws ->
  snd (totals (map counts ws))
  = nonblank (lines_of fs (discover MAX_FILES globbed))
  /\ snd (fst (totals (map counts ws)))
     = skipped_of json_loads (lines_of fs (discover MAX_FILES globbed)).
Proof.
  intros Hplan Hpool.
  destruct (main_plan_some _ _ _ _ _ Hplan) as (Hc & Hn & Hne).
  destruct (main_plan_ok _ _ _ _ Hc Hn Hne) as (Hp & _ & _ & Hlen).
  cbn zeta in Hp, Hlen. rewrite Hp in Hplan. injection Hplan as <-.
  cbn [chunks] in Hpool.
  apply pool_totals in Hpool. rewrite chunks_concat in Hpool.
  rewrite firstn_all2 in Hpool by lia. exact Hpool.
Qed.

Lemma totals_of_all_files_witness :
  exists p ws,
    main_plan 2 8 0 ["raw3.json"; "raw1.json"; "raw2.json"] = Ok (Some p)
    /\ pool_map Loads.loads Table.execute Table.commit three_files 10000
         (chunks p) ws
    /\ totals (map counts ws) = (3, 2, 5)
    /\ snd (totals (map counts ws))
       = nonblank (lines_of three_files
                     (discover 0 ["raw3.json"; "raw1.json"; "raw2.json"]))
    /\ snd (fst (totals (map counts ws)))
       = skipped_of Loads.loads
           (lines_of three_files
              (discover 0 ["raw3.json"; "raw1.json"; "raw2.json"])).
Proof.
  eexists. eexists. split; [vm_compute; reflexivity |].
  assert (Hpool : forall A B : Prop, A -> (A -> B) -> A /\ B) by tauto.
  apply Hpool.
  - constructor; [exists Table.empty; vm_compute; reflexivity |].
    constructor; [exists Table.empty; vm_compute; reflexivity |].
    constructor.
  - intros Hp. split; [reflexivity |].
    refine (totals_of_all_files Loads.loads Table.t Table.execute Table.commit
              three_files 10000 2 8 0 ["raw3.json"; "raw1.json"; "raw2.json"]
              _ _ _ Hp).
    vm_compute. reflexivity.
Defined.


(** ** The sequential script

    [main] of [backfill.py] against the lines of its files. *)

Lemma legacy_rows_of_app (json_loads : string -> option json)
  (a b : list string) :
  legacy_rows_of json_loads (a ++ b)
  = legacy_rows_of json_loads a ++ legacy_rows_of json_loads b.
Proof. unfold legacy_rows_of. apply flat_map_app. Qed.

Lemma seq_skipped_of_app (json_loads : string -> option json)
  (a b : list string) :
  seq_skipped_of json_loads (a ++ b)
  = seq_skipped_of json_loads a + seq_skipped_of json_loads b.
Proof. unfold seq_skipped_of. rewrite filter_app, length_app. lia. Qed.

Lemma legacy_rows_of_cons (json_loads : string -> option json)
  (l : string) (lines : list string) :
  legacy_rows_of json_loads (l :: lines)
  = match seq_fate_of json_loads l with
    | SSend r => r :: legacy_rows_of json_loads lines
    | _ => legacy_rows_of json_loads lines
    end.
Proof.
  unfold legacy_rows_of. cbn [flat_map].
  destruct (seq_fate_of json_loads l); reflexivity.
Qed.

Lemma seq_skipped_of_cons (json_loads : string -> option json)
  (l : string) (lines : list string) :
  seq_skipped_of json_loads (l :: lines)
  = match seq_fate_of json_loads l with
    | SSkip => 1 + seq_skipped_of json_loads lines
    | _ => seq_skipped_of json_loads lines
    end.
Proof.
  unfold seq_skipped_of. cbn [filter].
  destruct (seq_fate_of json_loads l); cbn [List.length]; lia.
Qed.

Lemma seq_fate_blank (json_loads : string -> option json) (line : string) :
  seq_fate_of json_loads line = SBlank <-> blank line = true.
Proof.
  unfold seq_fate_of. destruct (blank line); split; try congruence.
  destruct (json_loads (strip line)) as [obj |]; try discriminate.
  destruct (parse_ts obj) as [[t |] | e]; try discriminate.
  destruct (resolve_id obj) as [i | e]; try discriminate.
  destruct (truthy i); discriminate.
Qed.

Lemma seq_nonblank_cons (json_loads : string -> option json)
  (l : string) (lines : list string) :
  nonblank (l :: lines)
  = match seq_fate_of json_loads l with
    | SBlank => nonblank lines
    | _ => 1 + nonblank lines
    end.
Proof.
  pose proof (seq_fate_blank json_loads l) as [H1 H2].
  unfold nonblank. cbn [filter].
  destruct (seq_fate_of json_loads l) eqn:E.
  - rewrite H1 by reflexivity. reflexivity.
  - destruct (blank l); [now specialize (H2 eq_refl) |].
    cbn [negb List.length]. lia.
  - destruct (blank l); [now specialize (H2 eq_refl) |].
    cbn [negb List.length]. lia.
  - destruct (blank l); [now specialize (H2 eq_refl) |].
    cbn [negb List.length]. lia.
Qed.

Section SequentialFacts.

Variable json_loads : string -> option json.
Variable db : Type.
Variable execute1 : db -> legacy_row -> answer db.
Variable commit : db -> exc db.
Variable rollback : db -> exc db.
Variable fs : string -> option (list string).

(** The decision on a line and the answer of the store give the step of
    [main] on it. *)
Lemma seq_line_fate (s : sequential db) (line : string) :
  seq_line json_loads execute1 rollback s line
  = match seq_fate_of json_loads line with
    | SBlank => Ok s
    | SSkip => Ok (seq_skip s)
    | SSend r =>
        match execute1 (s_store s) r with
        | Answered st n =>
            Ok {| s_store := st;
                  s_inserted := if negb (n =? 0) then s_inserted s + 1
                                else s_inserted s;
                  s_skipped := s_skipped s;
                  s_sent := s_sent s ++ [r] |}
        | IntegrityError st =>
            st' <- rollback st ;;
            Ok {| s_store := st'; s_inserted := s_inserted s;
                  s_skipped := s_skipped s + 1;
                  s_sent := s_sent s ++ [r] |}
        | Failed e => Raise e
        end
    | SFail e => Raise e
    end.
Proof.
  unfold seq_line, seq_fate_of, blank. cbn zeta.
  destruct (strip line =? "")%string; [reflexivity |].
  destruct (json_loads (strip line)) as [obj |]; [| reflexivity].
  destruct (parse_ts obj) as [[t |] | e]; cbn [bind]; try reflexivity.
  destruct (resolve_id obj) as [i | e]; cbn [bind]; [| reflexivity].
  destruct (truthy i); cbn [negb]; reflexivity.
Qed.

Lemma seq_related_nil (s s' : sequential db) :
  s_sent s' = s_sent s -> s_inserted s' = s_inserted s ->
  s_skipped s' = s_skipped s ->
  seq_related json_loads [] s s'.
Proof.
  intros H1 H2 H3. split; cbn; rewrite ?H1, ?H2, ?H3, ?app_nil_r;
    try reflexivity; try lia.
Qed.

Lemma seq_related_app (a b : list string) (s1 s2 s3 : sequential db) :
  seq_related json_loads a s1 s2 -> seq_related json_loads b s2 s3 ->
  seq_related json_loads (a ++ b) s1 s3.
Proof.
  intros [A1 A2 A3 A4 A5] [B1 B2 B3 B4 B5].
  split; rewrite ?legacy_rows_of_app, ?seq_skipped_of_app, ?nonblank_app,
           ?length_app, ?Nat2Z.inj_add; try lia.
  now rewrite B1, A1, app_assoc.
Qed.

Lemma seq_line_related (s s' : sequential db) (line : string) :
  seq_line json_loads execute1 rollback s line = Ok s' ->
  seq_related json_loads [line] s s'.
Proof.
  rewrite seq_line_fate. intros H.
  split; rewrite ?legacy_rows_of_cons, ?seq_skipped_of_cons,
           ?(seq_nonblank_cons json_loads);
    destruct (seq_fate_of json_loads line) as [| | r | e];
    try discriminate H;
    try (injection H as <-; cbn; rewrite ?app_nil_r; try reflexivity; lia);
    (destruct (execute1 (s_store s) r) as [st n | st | e];
     [ injection H as <-; cbn; try reflexivity; destruct (negb (n =? 0)); lia
     | destruct (rollback st) as [st' |]; [| discriminate H];
       cbn [bind] in H; injection H as <-; cbn; try reflexivity; lia
     | discriminate H ]).
Qed.

Lemma seq_lines_related (lines : list string) (s s' : sequential db) :
  seq_lines json_loads execute1 rollback s lines = Ok s' ->
  seq_related json_loads lines s s'.
Proof.
  revert s. induction lines as [| l lines IH]; intros s H.
  - injection H as <-. now apply seq_related_nil.
  - cbn [seq_lines] in H.
    destruct (seq_line json_loads execute1 rollback s l) as [s1 |] eqn:E;
      [| discriminate H].
    cbn [bind] in H. apply (seq_related_app [l] lines s s1 s').
    + now apply seq_line_related.
    + now apply IH.
Qed.

Lemma seq_commit_related (s s' : sequential db) :
  seq_commit commit s = Ok s' -> seq_related json_loads [] s s'.
Proof.
  unfold seq_commit. destruct (commit (s_store s)) as [st |]; [| discriminate].
  cbn [bind]. intros H. injection H as <-. now apply seq_related_nil.
Qed.

Lemma seq_files_related (files : list string) (s s' : sequential db) :
  seq_files json_loads execute1 commit rollback fs s files = Done s' ->
  seq_related json_loads (lines_of fs files) s s'
  /\ Forall (fun path => fs path <> None) files.
Proof.
  revert s. induction files as [| p files IH]; intros s H.
  - injection H as <-. split; [now apply seq_related_nil | constructor].
  - cbn [seq_files] in H. unfold lines_of. cbn [flat_map].
    fold (lines_of fs files).
    destruct (fs p) as [lines |] eqn:Ep; [| discriminate H].
    destruct (seq_lines json_loads execute1 rollback s lines) as [s1 |] eqn:E1;
      [| discriminate H].
    cbn [bind lift] in H.
    destruct (seq_commit commit s1) as [s2 |] eqn:E2; [| discriminate H].
    cbn [lift] in H. apply IH in H as [H Hf]. split.
    + apply (seq_related_app lines (lines_of fs files) s s2 s'); [| exact H].
      rewrite <- (app_nil_r lines).
      apply (seq_related_app lines [] s s1 s2).
      * now apply seq_lines_related.
      * now apply seq_commit_related.
    + constructor; [congruence | exact Hf].
Qed.

Lemma seq_main_related (files : list string) (st : db) (s : sequential db) :
  seq_main json_loads execute1 commit rollback fs files st = Done s ->
  seq_related json_loads (lines_of fs files)
    {| s_store := st; s_inserted := 0; s_skipped := 0; s_sent := [] |} s
  /\ Forall (fun path => fs path <> None) files.
Proof.
  unfold seq_main.
  destruct (seq_files _ _ _ _ _ _ files) as [s1 | x] eqn:E; [| discriminate].
  destruct (seq_commit commit s1) as [s2 |] eqn:E2; [| discriminate].
  cbn [lift]. intros H. injection H as <-.
  apply seq_files_related in E as [E Hf]. split; [| exact Hf].
  rewrite <- (app_nil_r (lines_of fs files)).
  eapply seq_related_app; [exact E |]. now apply seq_commit_related.
Qed.

(** X19.  When the sequential script reaches its last line, every one of its
    paths was a readable file; the statements it has run are those of the
    lines that carry a timestamp and an identifier, in the order of the
    files and of their lines; [skipped] counts at least the other non-blank
    lines; no line is counted twice, so [inserted + skipped] is at most the
    number of non-blank lines and [inserted] at most the number of
    statements. *)
Theorem sequential_counts (files : list string) (st : db)
  (s : sequential db) :
  seq_main json_loads execute1 commit rollback fs files st = Done s ->
  Forall (fun path => fs path <> None) files
  /\ s_sent s = legacy_rows_of json_loads (lines_of fs files)
  /\ 0 <= s_inserted s <= Z.of_nat (List.length (s_sent s))
  /\ seq_skipped_of json_loads (lines_of fs files) <= s_skipped s
  /\ s_inserted s + s_skipped s <= nonblank (lines_of fs files)
  /\ nonblank (lines_of fs files)
     = seq_skipped_of json_loads (lines_of fs files)
       + Z.of_nat (List.length (s_sent s)).
Proof.
  intros H. apply seq_main_related in H as [[H1 H2 H3 H4 H5] Hf].
  cbn in H1, H2, H3, H4. rewrite H1. repeat split; try assumption; lia.
Qed.

End SequentialFacts.

Arguments seq_line_fate json_loads {db} execute1 rollback s line.
Arguments seq_main_related json_loads {db} execute1 commit rollback fs files st s _.

Lemma sequential_counts_witness :
  exists s,
    legacy_run three_files ["raw1.json"; "raw2.json"; "raw3.json"] = Done s
    /\ (s_inserted s, s_skipped s) = (3, 2)
    /\ Forall (fun path => three_files path <> None)
         ["raw1.json"; "raw2.json"; "raw3.json"]
    /\ s_sent s
       = legacy_rows_of Loads.loads
           (lines_of three_files ["raw1.json"; "raw2.json"; "raw3.json"])
    /\ 0 <= s_inserted s <= Z.of_nat (List.length (s_sent s))
    /\ seq_skipped_of Loads.loads
         (lines_of three_files ["raw1.json"; "raw2.json"; "raw3.json"])
       <= s_skipped s
    /\ s_inserted s + s_skipped s
       <= nonblank (lines_of three_files ["raw1.json"; "raw2.json"; "raw3.json"])
    /\ nonblank (lines_of three_files ["raw1.json"; "raw2.json"; "raw3.json"])
       = seq_skipped_of Loads.loads
           (lines_of three_files ["raw1.json"; "raw2.json"; "raw3.json"])
         + Z.of_nat (List.length (s_sent s)).
Proof.
  eexists. split; [vm_compute; reflexivity |]. split; [reflexivity |].
  refine (sequential_counts Loads.loads LegacyTable.t LegacyTable.execute1
            LegacyTable.commit LegacyTable.rollback three_files
            ["raw1.json"; "raw2.json"; "raw3.json"] LegacyTable.empty _ _).
  vm_compute. reflexivity.
Defined.

(** ** The two scripts on the same files *)

(** The sequential script decides on a line as the worker does, except that
    it has no projector to fail in. *)
Lemma fates_agree (json_loads : string -> option json) (line : string) :
  match fate_of json_loads line with
  | Blank => seq_fate_of json_loads line = SBlank
  | Skip => seq_fate_of json_loads line = SSkip
  | Keep r =>
      exists obj,
        seq_fate_of json_loads line
        = SSend {| l_ts := ts r; l_id_str := id_str r; l_data := obj |}
  | Fail e => True
  end.
Proof.
  unfold fate_of, seq_fate_of.
  destruct (blank line); [reflexivity |].
  destruct (json_loads (strip line)) as [obj |]; [| reflexivity].
  destruct (parse_ts obj) as [[t |] | e]; try exact I; try reflexivity.
  destruct (resolve_id obj) as [i | e]; [| exact I].
  destruct (truthy i); [| reflexivity].
  destruct (extract_row obj) as [r | e]; [| exact I].
  now exists obj.
Qed.

Lemma rows_agree (json_loads : string -> option json) (lines : list string) :
  first_error json_loads lines = None ->
  map (fun r => (l_ts r, l_id_str r)) (legacy_rows_of json_loads lines)
  = map (fun r => (ts r, id_str r)) (rows_of json_loads lines)
  /\ seq_skipped_of json_loads lines = skipped_of json_loads lines.
Proof.
  induction lines as [| l lines IH]; [now split |].
  cbn [first_error]. intros H.
  rewrite legacy_rows_of_cons, seq_skipped_of_cons.
  rewrite (rows_of_cons json_loads l lines), (skipped_of_cons json_loads l lines).
  assert (Hr : rows_of json_loads [l]
               = match fate_of json_loads l with Keep r => [r] | _ => [] end).
  { unfold rows_of. cbn [flat_map]. now rewrite app_nil_r. }
  assert (Hs : skipped_of json_loads [l]
               = match fate_of json_loads l with Skip => 1 | _ => 0 end).
  { unfold skipped_of. cbn [filter].
    destruct (fate_of json_loads l); reflexivity. }
  rewrite Hr, Hs. clear Hr Hs.
  pose proof (fates_agree json_loads l) as Hl.
  destruct (fate_of json_loads l) as [| | r | e]; [| | | discriminate H];
    destruct (IH H) as [IH1 IH2].
  - rewrite Hl. cbn [map app]. split; [exact IH1 | lia].
  - rewrite Hl. cbn [map app]. split; [exact IH1 | lia].
  - destruct Hl as [obj ->]. cbn [map app l_ts l_id_str].
    split; [now rewrite IH1 | lia].
Qed.

Lemma no_integrity_error_skipped (json_loads : string -> option json)
  (db : Type) (execute1 : db -> legacy_row -> answer db)
  (rollback : db -> exc db) (lines : list string) (s s' : sequential db) :
  (forall st r st', execute1 st r <> IntegrityError st') ->
  seq_lines json_loads execute1 rollback s lines = Ok s' ->
  s_skipped s' = s_skipped s + seq_skipped_of json_loads lines.
Proof.
  intros Hno. revert s. induction lines as [| l lines IH]; intros s H.
  - injection H as <-. cbn. lia.
  - cbn [seq_lines] in H. rewrite seq_line_fate in H.
    rewrite seq_skipped_of_cons.
    destruct (seq_fate_of json_loads l) as [| | r | e]; cbn [bind] in H.
    + now apply IH.
    + apply IH in H. cbn in H. lia.
    + destruct (execute1 (s_store s) r) as [st n | st | e] eqn:E.
      * cbn [bind] in H. apply IH in H. exact H.
      * now apply Hno in E.
      * discriminate H.
    + discriminate H.
Qed.

Lemma no_integrity_error_files (json_loads : string -> option json)
  (db : Type) (execute1 : db -> legacy_row -> answer db)
  (commit rollback : db -> exc db) (fs : string -> option (list string))
  (files : list string) (s s' : sequential db) :
  (forall st r st', execute1 st r <> IntegrityError st') ->
  seq_files json_loads execute1 commit rollback fs s files = Done s' ->
  s_skipped s' = s_skipped s + seq_skipped_of json_loads (lines_of fs files).
Proof.
  intros Hno. revert s. induction files as [| p files IH]; intros s H.
  - injection H as <-. cbn. lia.
  - cbn [seq_files] in H. unfold lines_of. cbn [flat_map].
    fold (lines_of fs files). rewrite seq_skipped_of_app.
    destruct (fs p) as [lines |]; [| discriminate H].
    destruct (seq_lines json_loads execute1 rollback s lines) as [s1 |] eqn:E1;
      [| discriminate H].
    cbn [bind lift] in H. unfold seq_commit in H.
    destruct (commit (s_store s1)) as [st |]; [| discriminate H].
    cbn [bind lift] in H. apply IH in H. cbn in H.
    apply (no_integrity_error_skipped _ _ _ _ _ _ _ Hno) in E1. lia.
Qed.

(** X20.  On the same files, when both scripts return, the sequential script has
    sent the store a statement for exactly the (timestamp, identifier) keys
    of the rows the worker has sent in its batches, in the same order, and
    has skipped at least the lines the worker has skipped: exactly those
    when its store never raises an integrity error. *)
Theorem scripts_send_the_same_keys
  (json_loads : string -> option json) (db db' : Type)
  (execute : db -> list dbrow -> exc (db * Z)) (commit : db -> exc db)
  (execute1 : db' -> legacy_row -> answer db')
  (commit' rollback : db' -> exc db')
  (fs : string -> option (list string)) (BATCH_SIZE : Z)
  (files : list string) (st : db) (st' : db')
  (w : worker db) (s : sequential db') :
  process_files json_loads execute commit fs BATCH_SIZE files st = Ok w ->
  seq_main json_loads execute1 commit' rollback fs files st' = Done s ->
  map (fun r => (l_ts r, l_id_str r)) (s_sent s)
  = map (fun r => (ts r, id_str r)) (List.concat (flushed w))
  /\ skipped w <= s_skipped s
  /\ ((forall x r y, execute1 x r <> IntegrityError y) ->
      s_skipped s = skipped w).
Proof.
  intros Hw Hs.
  pose proof (run_kept_rows json_loads execute commit fs BATCH_SIZE
                files st w Hw) as [_ Hrows].
  pose proof (run_counters json_loads execute commit fs BATCH_SIZE
                files st w Hw) as (_ & Hsk & _).
  apply run_shape in Hw as (w1 & Hw1 & _).
  apply lines_ok_no_error in Hw1. apply rows_agree in Hw1 as [Hk Hskip].
  pose proof (seq_main_related json_loads execute1 commit' rollback fs
                files st' s Hs) as [[H1 H2 H3 H4 H5] _].
  cbn in H1, H3. rewrite H1, Hrows, Hsk, <- Hskip.
  split; [exact Hk |]. split; [lia |].
  intros Hno. unfold seq_main in Hs.
  destruct (seq_files _ _ _ _ _ _ files) as [s1 | x] eqn:E; [| discriminate].
  apply (no_integrity_error_files _ _ _ _ _ _ _ _ _ Hno) in E. cbn in E.
  unfold seq_commit in Hs.
  destruct (commit' (s_store s1)); [| discriminate Hs].
  cbn in Hs. injection Hs as <-. cbn. lia.
Qed.

Lemma scripts_send_the_same_keys_witness :
  exists w s,
    process_files Loads.loads Table.execute Table.commit three_files 2
      ["raw1.json"; "raw2.json"; "raw3.json"] Table.empty = Ok w
    /\ legacy_run three_files ["raw1.json"; "raw2.json"; "raw3.json"] = Done s
    /\ map (fun r => py_str (l_id_str r)) (s_sent s) = ["2"; "x"; "y"]
    /\ map (fun r => (l_ts r, l_id_str r)) (s_sent s)
       = map (fun r => (ts r, id_str r)) (List.concat (flushed w))
    /\ skipped w <= s_skipped s
    /\ ((forall x r y, LegacyTable.execute1 x r <> IntegrityError y) ->
        s_skipped s = skipped w).
Proof.
  eexists. eexists. split; [vm_compute; reflexivity |].
  split; [vm_compute; reflexivity |]. split; [reflexivity |].
  refine (scripts_send_the_same_keys Loads.loads Table.t LegacyTable.t
            Table.execute Table.commit LegacyTable.execute1
            LegacyTable.commit LegacyTable.rollback three_files 2
            ["raw1.json"; "raw2.json"; "raw3.json"] Table.empty
            LegacyTable.empty _ _ _ _).
  - vm_compute. reflexivity.
  - vm_compute. reflexivity.
Defined.

(** ** The sequential script on the legacy table *)

Lemma legacy_accepted_app (tbl a b : list legacy_row) :
  LegacyTable.accepted tbl (a ++ b)
  = LegacyTable.accepted tbl a
    ++ LegacyTable.accepted (tbl ++ LegacyTable.accepted tbl a) b.
Proof.
  revert tbl. induction a as [| r a IH]; intros tbl; cbn.
  - now rewrite app_nil_r.
  - destruct (existsb (LegacyTable.same_key r) tbl); [apply IH |].
    cbn. rewrite IH, <- app_assoc. reflexivity.
Qed.

(** The lines of a file on the legacy table: the first line that raises
    ends the script; otherwise the rows of new keys are pending, [inserted]
    has grown by their number and [skipped] by the number of skipped
    lines. *)
Lemma legacy_lines (json_loads : string -> option json)
  (lines : list string) (c p : list legacy_row) (ins sk : Z)
  (sent : list legacy_row) :
  seq_lines json_loads LegacyTable.execute1 LegacyTable.rollback
    {| s_store := {| LegacyTable.committed := c; LegacyTable.pending := p |};
       s_inserted := ins; s_skipped := sk; s_sent := sent |} lines
  = match seq_first_error json_loads lines with
    | Some e => Raise e
    | None =>
        let new := LegacyTable.accepted (c ++ p)
                     (legacy_rows_of json_loads lines) in
        Ok {| s_store := {| LegacyTable.committed := c;
                            LegacyTable.pending := p ++ new |};
              s_inserted := ins + Z.of_nat (List.length new);
              s_skipped := sk + seq_skipped_of json_loads lines;
              s_sent := sent ++ legacy_rows_of json_loads lines |}
    end.
Proof.
  revert p ins sk sent.
  induction lines as [| l lines IH]; intros p ins sk sent.
  - cbn. now rewrite !app_nil_r, !Z.add_0_r.
  - cbn [seq_lines seq_first_error]. rewrite seq_line_fate.
    rewrite legacy_rows_of_cons, seq_skipped_of_cons.
    destruct (seq_fate_of json_loads l) as [| | r | e]; cbn [bind].
    + apply IH.
    + unfold seq_skip. cbn [s_store s_inserted s_skipped s_sent].
      rewrite IH. destruct (seq_first_error json_loads lines); [reflexivity |].
      cbn zeta. do 2 f_equal. lia.
    + cbn [s_store s_inserted s_skipped s_sent].
      unfold LegacyTable.execute1.
      cbn [LegacyTable.committed LegacyTable.pending LegacyTable.accepted].
      destruct (existsb (LegacyTable.same_key r) (c ++ p)).
      * cbn [negb Z.eqb bind]. rewrite IH.
        destruct (seq_first_error json_loads lines); [reflexivity |].
        cbn zeta. rewrite <- !app_assoc. reflexivity.
      * cbn [negb Z.eqb bind]. rewrite IH.
        destruct (seq_first_error json_loads lines); [reflexivity |].
        cbn zeta. cbn [List.length]. rewrite <- !app_assoc. cbn [app].
        do 2 f_equal. lia.
    + reflexivity.
Qed.

Lemma legacy_files (json_loads : string -> option json)
  (fs : string -> option (list string)) (files : list string)
  (c : list legacy_row) (ins sk : Z) (sent : list legacy_row) :
  seq_files json_loads LegacyTable.execute1 LegacyTable.commit
    LegacyTable.rollback fs
    {| s_store := {| LegacyTable.committed := c; LegacyTable.pending := [] |};
       s_inserted := ins; s_skipped := sk; s_sent := sent |} files
  = match first_stop json_loads fs files with
    | Some x => Stopped x
    | None =>
        let new := LegacyTable.accepted c
                     (legacy_rows_of json_loads (lines_of fs files)) in
        Done {| s_store := {| LegacyTable.committed := c ++ new;
                              LegacyTable.pending := [] |};
                s_inserted := ins + Z.of_nat (List.length new);
                s_skipped := sk + seq_skipped_of json_loads (lines_of fs files);
                s_sent := sent
                          ++ legacy_rows_of json_loads (lines_of fs files) |}
    end.
Proof.
  revert c ins sk sent.
  induction files as [| f files IH]; intros c ins sk sent.
  - cbn. now rewrite !app_nil_r, !Z.add_0_r.
  - cbn [seq_files first_stop]. unfold lines_of. cbn [flat_map].
    fold (lines_of fs files).
    destruct (fs f) as [lines |]; [| reflexivity].
    rewrite legacy_lines.
    destruct (seq_first_error json_loads lines); [reflexivity |].
    cbn zeta. cbn [bind lift seq_commit s_store s_inserted s_skipped s_sent
                   LegacyTable.commit LegacyTable.committed
                   LegacyTable.pending app].
    rewrite app_nil_r. unfold seq_commit, LegacyTable.commit.
    cbn [bind lift s_store s_inserted s_skipped s_sent
         LegacyTable.committed LegacyTable.pending app].
    rewrite IH.
    destruct (first_stop json_loads fs files); [reflexivity |].
    cbn zeta.
    rewrite legacy_rows_of_app, seq_skipped_of_app, legacy_accepted_app,
      length_app, Nat2Z.inj_add, <- !app_assoc.
    do 2 f_equal; lia.
Qed.

